(** * TidyJSON: a shallow embedding of [TidyJSONParser] (src/tidyJSON.py)

    The parser object holds [json_str] and a mutable [index]; every method
    reads [json_str] and updates [index].  The embedding threads the index
    explicitly: a method is a function [Z -> outcome A * Z] returning its
    result (a value, a raised Python exception, or running out of fuel) and
    the index as left by the method, also when an exception propagates
    (Python keeps the mutated attribute in that case).

    Strings are Rocq [string]s whose characters are read as the code points
    0..255 (Latin-1); Python's [int], [float], [str.isdigit] and whitespace
    are modelled on that range.  A Python [float] is an IEEE 754 binary64
    number, obtained from the decimal literal by rounding to nearest, ties to
    even, with overflow to [inf]. *)

From Stdlib Require Import String Ascii ZArith List Bool Lia.
Import ListNotations.
Open Scope Z_scope.

(** ** Python built-ins on strings *)

Definition dquote : ascii := Ascii.ascii_of_nat 34.
Definition q : string := String dquote EmptyString.

Definition py_len (s : string) : Z := Z.of_nat (String.length s).

(** [s[i]]: negative indices count from the end; [None] is [IndexError]. *)
Definition py_getitem (s : string) (i : Z) : option ascii :=
  if 0 <=? i then String.get (Z.to_nat i) s
  else if - py_len s <=? i then String.get (Z.to_nat (py_len s + i)) s
  else None.

(** Bound of a slice [s[a:b]] after Python's normalisation. *)
Definition py_slice_bound (s : string) (a : Z) : Z :=
  if a <? 0 then Z.max 0 (a + py_len s) else Z.min a (py_len s).

(** [s[a:b]] *)
Definition py_slice (s : string) (a b : Z) : string :=
  let a' := py_slice_bound s a in
  let b' := py_slice_bound s b in
  if a' <? b' then String.substring (Z.to_nat a') (Z.to_nat (b' - a')) s
  else EmptyString.

(** [s.startswith(prefix, start)] (CPython's [tailmatch] with [end = len(s)]). *)
Definition py_startswith (s prefix : string) (start : Z) : bool :=
  let st := if start <? 0 then Z.max 0 (start + py_len s) else start in
  (st + py_len prefix <=? py_len s)
  && String.eqb (String.substring (Z.to_nat st) (String.length prefix) s) prefix.

(** [c in s] for a one-character [c]. *)
Definition py_contains_char (s : string) (c : ascii) : bool :=
  existsb (fun d => Ascii.eqb d c) (list_ascii_of_string s).

(** [str.isdigit] on one Latin-1 character: ASCII digits and the
    superscripts one, two and three. *)
Definition py_isdigit (c : ascii) : bool :=
  let n := nat_of_ascii c in
  ((48 <=? n) && (n <=? 57))%nat || (n =? 178)%nat || (n =? 179)%nat || (n =? 185)%nat.

(** Decimal digits accepted by [int] and [float] (Unicode category Nd). *)
Definition is_decimal (c : ascii) : bool :=
  let n := nat_of_ascii c in ((48 <=? n) && (n <=? 57))%nat.

Definition digit_value (c : ascii) : Z := Z.of_nat (nat_of_ascii c) - 48.

(** [str.isspace] on one Latin-1 character. *)
Definition py_isspace (c : ascii) : bool :=
  let n := nat_of_ascii c in
  ((9 <=? n) && (n <=? 13))%nat || ((28 <=? n) && (n <=? 32))%nat
  || (n =? 133)%nat || (n =? 160)%nat.

(** The whitespace [int] and [float] strip from their argument: on Latin-1,
    the characters 9..13, 32, 133 and 160 (not the separators 28..31, which
    [str.isspace] accepts but the numeric conversions reject). *)
Definition py_num_space (c : ascii) : bool :=
  let n := nat_of_ascii c in
  ((9 <=? n) && (n <=? 13))%nat || (n =? 32)%nat || (n =? 133)%nat || (n =? 160)%nat.

Fixpoint lstrip (l : list ascii) : list ascii :=
  match l with
  | c :: r => if py_num_space c then lstrip r else l
  | [] => []
  end.

Definition strip (l : list ascii) : list ascii := rev (lstrip (rev (lstrip l))).

(** Optional sign: the sign factor and the rest. *)
Definition take_sign (l : list ascii) : Z * list ascii :=
  match l with
  | c :: r => if Ascii.eqb c "-" then (-1, r) else if Ascii.eqb c "+" then (1, r) else (1, l)
  | [] => (1, [])
  end.

(** The rest of a digit part [digit (["_"] digit)*] after its first digit:
    value, number of digits, and the unread rest. *)
Fixpoint digitpart_rest (l : list ascii) (acc cnt : Z) : Z * Z * list ascii :=
  match l with
  | c :: r =>
      if is_decimal c then digitpart_rest r (acc * 10 + digit_value c) (cnt + 1)
      else if Ascii.eqb c "_" then
        match r with
        | c2 :: r2 =>
            if is_decimal c2 then digitpart_rest r2 (acc * 10 + digit_value c2) (cnt + 1)
            else (acc, cnt, l)
        | [] => (acc, cnt, l)
        end
      else (acc, cnt, l)
  | [] => (acc, cnt, [])
  end.

(** A digit part at the head of [l], if any. *)
Definition digitpart (l : list ascii) : option (Z * Z * list ascii) :=
  match l with
  | c :: r => if is_decimal c then Some (digitpart_rest r (digit_value c) 1) else None
  | [] => None
  end.

(** [sys.get_int_max_str_digits()]: the default limit on the number of
    digits of a decimal [int] conversion. *)
Definition int_max_str_digits : Z := 4300.

(** [int(tok)] for a [str] argument: [None] is [ValueError], raised also
    when the literal has more than [int_max_str_digits] digits (leading
    zeros count, underscores do not). *)
Definition py_int (tok : string) : option Z :=
  let '(sg, l) := take_sign (strip (list_ascii_of_string tok)) in
  match digitpart l with
  | Some (v, cnt, []) => if cnt <=? int_max_str_digits then Some (sg * v) else None
  | _ => None
  end.

(** The literal read by [float(tok)] for a [str] argument: its sign (true
    for ['-']) and its exact decimal value [m * 10^e] ([m >= 0]); [None] is
    [ValueError].  Only the decimal form is modelled: the spellings [inf],
    [infinity] and [nan] contain no ['.'] and so never reach the [float]
    branch of [parse_number]. *)
Definition float_literal (tok : string) : option (bool * Z * Z) :=
  let '(sg, l) := take_sign (strip (list_ascii_of_string tok)) in
  let '(iv, icnt, r1) :=
    match digitpart l with Some x => x | None => (0, 0, l) end in
  let '(has_point, fv, fcnt, r2) :=
    match r1 with
    | c :: r =>
        if Ascii.eqb c "." then
          match digitpart r with
          | Some (fv, fcnt, r2) => (true, fv, fcnt, r2)
          | None => (true, 0, 0, r)
          end
        else (false, 0, 0, r1)
    | [] => (false, 0, 0, [])
    end in
  let ex :=
    match r2 with
    | c :: r =>
        if Ascii.eqb c "e" || Ascii.eqb c "E" then
          let '(esg, r') := take_sign r in
          match digitpart r' with
          | Some (ev, _, []) => Some (esg * ev)
          | _ => None
          end
        else None
    | [] => Some 0
    end in
  match ex with
  | Some e =>
      if 0 <? icnt + fcnt
      then Some (sg =? -1, iv * 10 ^ fcnt + fv, e - fcnt)
      else None
  | None => None
  end.

(** A Python [float], an IEEE 754 binary64 number: [PFinite neg m e] is
    [(-1)^neg * m * 2^e] with [m] odd, or [m = 0] and [e = 0] (the zero of
    sign [neg]); [PInf neg] is an infinity.  The parser makes no NaN. *)
Inductive pyfloat : Type :=
| PFinite (neg : bool) (m e : Z)
| PInf (neg : bool).

(** [a / b] rounded to the nearest integer, ties to even ([a >= 0], [b > 0]). *)
Definition round_half_even (a b : Z) : Z :=
  let qt := a / b in
  let r := a mod b in
  if (b <? 2 * r) || ((2 * r =? b) && Z.odd qt) then qt + 1 else qt.

(** The binary64 magnitude nearest to [num / den] ([num >= 0], [den > 0]),
    ties to even, as [(sig, ex)] with value [sig * 2^ex]; [None] when it
    rounds to [2^1024] or more ([inf]).  [k] is the binary exponent of the
    quotient ([2^k <= num / den < 2^(k+1)] when [num > 0]); the unit in the
    last place is [2^ex]: 53 significant bits for normal numbers, the fixed
    [2^-1074] for subnormal ones. *)
Definition round_binary64 (num den : Z) : option (Z * Z) :=
  let k0 := Z.log2 num - Z.log2 den in
  let k :=
    if (if 0 <=? k0 then den * 2 ^ k0 <=? num else den <=? num * 2 ^ (- k0))
    then k0 else k0 - 1 in
  let ex := Z.max (k - 52) (-1074) in
  let sig :=
    if 0 <=? ex then round_half_even num (den * 2 ^ ex)
    else round_half_even (num * 2 ^ (- ex)) den in
  if 1024 <=? Z.log2 sig + ex then None else Some (sig, ex).

(** [(m, e)] with the factors 2 of [m] moved into [e] ([m < 2^fuel]). *)
Fixpoint odd_part (fuel : nat) (m e : Z) : Z * Z :=
  match fuel with
  | O => (m, e)
  | S f => if (m =? 0) || Z.odd m then (m, e) else odd_part f (m / 2) (e + 1)
  end.

Definition mk_finite (neg : bool) (sig ex : Z) : pyfloat :=
  if sig =? 0 then PFinite neg 0 0
  else let '(m, e) := odd_part 64 sig ex in PFinite neg m e.

(** The binary64 number nearest to [(-1)^neg * m * 10^e] ([m >= 0]).  The two
    shortcuts only avoid computing huge powers of ten: for [m >= 1] and
    [e > 310] the value exceeds [10^310 > 2^1024]; for
    [3 * e + log2 m + 1077 <= 0] it is below
    [2^(log2 m + 1) * 2^(3 * e) <= 2^-1076], less than half the least
    subnormal [2^-1074], so it rounds to zero. *)
Definition to_binary64 (neg : bool) (m e : Z) : pyfloat :=
  if m =? 0 then PFinite neg 0 0
  else if 310 <? e then PInf neg
  else if 3 * e + Z.log2 m + 1077 <=? 0 then PFinite neg 0 0
  else
    let r := if 0 <=? e then round_binary64 (m * 10 ^ e) 1
             else round_binary64 m (10 ^ (- e)) in
    match r with
    | Some (sig, ex) => mk_finite neg sig ex
    | None => PInf neg
    end.

(** [float(tok)] for a [str] argument: [None] is [ValueError]. *)
Definition py_float (tok : string) : option pyfloat :=
  match float_literal tok with
  | Some (neg, m, e) => Some (to_binary64 neg m e)
  | None => None
  end.

(** ** Parsed values

    The Python objects the parser returns: [None], [bool], [int], [float]
    (binary64), [str], [list] and [dict] (an association list in insertion
    order, as Python dicts iterate). *)

Set Warnings "-register-all".

Inductive value : Type :=
| VNone
| VBool (b : bool)
| VInt (n : Z)
| VFloat (f : pyfloat)
| VStr (s : string)
| VList (l : list value)
| VDict (kvs : list (value * value)).

(** ** Errors: [TidyErrorType] and [ErrorManager] *)

Inductive TidyErrorType : Type :=
| INVALID_CHARACTER
| MISSING_BRACKET
| MISSING_QUOTE
| UNEXPECTED_TOKEN.

Definition TidyErrorType_eqb (a b : TidyErrorType) : bool :=
  match a, b with
  | INVALID_CHARACTER, INVALID_CHARACTER | MISSING_BRACKET, MISSING_BRACKET
  | MISSING_QUOTE, MISSING_QUOTE | UNEXPECTED_TOKEN, UNEXPECTED_TOKEN => true
  | _, _ => false
  end.

Record ErrorManager : Type := {
  error_type : TidyErrorType;
  position : Z;
  json_str_of : string
}.

(** [ErrorManager._get_context] *)
Definition _get_context (e : ErrorManager) : string :=
  py_slice (json_str_of e)
    (Z.max 0 (position e - 10))
    (Z.min (py_len (json_str_of e)) (position e + 10)).

(** [str(error_type)] for the enum member, e.g. [TidyErrorType.UNEXPECTED_TOKEN]. *)
Definition error_type_str (t : TidyErrorType) : string :=
  match t with
  | INVALID_CHARACTER => "TidyErrorType.INVALID_CHARACTER"
  | MISSING_BRACKET => "TidyErrorType.MISSING_BRACKET"
  | MISSING_QUOTE => "TidyErrorType.MISSING_QUOTE"
  | UNEXPECTED_TOKEN => "TidyErrorType.UNEXPECTED_TOKEN"
  end.

(** Decimal rendering of an [int] ([str(n)]), with a digit budget. *)
Fixpoint nat_digits (fuel n : nat) (acc : string) : string :=
  match fuel with
  | O => acc
  | S fuel' =>
      let d := String (ascii_of_nat (48 + n mod 10)) acc in
      if (n <? 10)%nat then d else nat_digits fuel' (n / 10) d
  end.

Definition py_str_int (z : Z) : string :=
  let ds := nat_digits (S (Z.to_nat (Z.abs z))) (Z.to_nat (Z.abs z)) EmptyString in
  if z <? 0 then String "-" ds else ds.

(** [str(z)] for an [int]: [None] is the [ValueError] raised when the
    decimal text would have more than [int_max_str_digits] digits. *)
Definition py_str (z : Z) : option string :=
  let t := py_str_int z in
  if py_len t - (if z <? 0 then 1 else 0) <=? int_max_str_digits then Some t else None.

Definition nl : string := String (ascii_of_nat 10) EmptyString.

(** The message [ErrorManager.__attrs_post_init__] passes to [Exception]:
    [f"{error_type} \n at position: {position} \n context: {error_context}"];
    [None] when formatting the position raises [ValueError].  (The parser
    only reports indices into [json_str], far below that limit.) *)
Definition error_message (e : ErrorManager) : option string :=
  match py_str (position e) with
  | Some p =>
      Some (error_type_str (error_type e) ++ " " ++ nl ++ " at position: "
            ++ p ++ " " ++ nl ++ " context: " ++ _get_context e)%string
  | None => None
  end.

(** Python exceptions a parse can raise. *)
Inductive exn : Type :=
| Tidy (e : ErrorManager)
| ValueError
| AttributeError
| IndexError
| TypeError.

(** ** The parser monad: index passing with exceptions *)

Inductive outcome (A : Type) : Type :=
| Ok (a : A)
| Raise (x : exn)
| OutOfFuel.
Arguments Ok {A} a.
Arguments Raise {A} x.
Arguments OutOfFuel {A}.

Definition M (A : Type) : Type := Z -> outcome A * Z.

Definition ret {A} (a : A) : M A := fun i => (Ok a, i).
Definition raise {A} (x : exn) : M A := fun i => (Raise x, i).
Definition out_of_fuel {A} : M A := fun i => (OutOfFuel, i).
Definition bind {A B} (m : M A) (k : A -> M B) : M B :=
  fun i =>
    match m i with
    | (Ok a, j) => k a j
    | (Raise x, j) => (Raise x, j)
    | (OutOfFuel, j) => (OutOfFuel, j)
    end.
Definition get_index : M Z := fun i => (Ok i, i).
(** [self.index += n] *)
Definition advance (n : Z) : M unit := fun i => (Ok tt, i + n).
Definition lift {A} (o : outcome A) : M A := fun i => (o, i).

Notation "x <- m ;; k" := (bind m (fun x => k))
  (at level 61, m at next level, right associativity).
Notation "m ;; k" := (bind m (fun _ => k)) (at level 61, right associativity).

(** ** [dict] keys: hashing and equality *)

(** A numeric value: a dyadic rational [m * 2^e] or an infinity. *)
Inductive pynum : Type :=
| NFin (m e : Z)
| NInf (neg : bool).

(** [int], [bool] and [float] keys compare by numeric value
    ([True == 1 == 1.0], [0.0 == -0.0]). *)
Definition numeric (v : value) : option pynum :=
  match v with
  | VBool b => Some (NFin (if b then 1 else 0) 0)
  | VInt n => Some (NFin n 0)
  | VFloat (PFinite neg m e) => Some (NFin (if neg then - m else m) e)
  | VFloat (PInf neg) => Some (NInf neg)
  | _ => None
  end.

Definition num_eqb (a b : pynum) : bool :=
  match a, b with
  | NFin m1 e1, NFin m2 e2 =>
      let e := Z.min e1 e2 in m1 * 2 ^ (e1 - e) =? m2 * 2 ^ (e2 - e)
  | NInf n1, NInf n2 => Bool.eqb n1 n2
  | _, _ => false
  end.

(** [a == b] on hashable values. *)
Definition py_key_eqb (a b : value) : bool :=
  match a, b with
  | VNone, VNone => true
  | VStr x, VStr y => String.eqb x y
  | _, _ =>
      match numeric a, numeric b with
      | Some x, Some y => num_eqb x y
      | _, _ => false
      end
  end.

Definition hashable (v : value) : bool :=
  match v with VList _ | VDict _ => false | _ => true end.

(** [d[k] = v] on an insertion-ordered dict: an equal key keeps its place
    (and the key object already stored) and gets the new value. *)
Fixpoint dict_set (kvs : list (value * value)) (k v : value) : list (value * value) :=
  match kvs with
  | [] => [(k, v)]
  | (k', v') :: r => if py_key_eqb k' k then (k', v) :: r else (k', v') :: dict_set r k v
  end.

Definition dict_setitem (kvs : list (value * value)) (k v : value)
  : outcome (list (value * value)) :=
  if hashable k then Ok (dict_set kvs k v) else Raise TypeError.

(** ** The parser over a fixed [json_str] *)

Section Parser.

Variable json_str : string.

(** [get_char]: [json_str[index] if index < len(json_str) else None]. *)
Definition get_char : M (option ascii) :=
  fun i =>
    if i <? py_len json_str then
      match py_getitem json_str i with
      | Some c => (Ok (Some c), i)
      | None => (Raise IndexError, i)
      end
    else (Ok None, i).

(** [while P(self.get_char()): self.index += 1], with a step budget. *)
Fixpoint scan_while (P : option ascii -> bool) (k : nat) : M unit :=
  match k with
  | O => out_of_fuel
  | S k' =>
      ch <- get_char ;;
      if P ch then advance 1 ;; scan_while P k' else ret tt
  end.

(** Budget of a scan from [i]: one step per character left, plus the last
    test (the loops below all stop at end of input). *)
Definition scan_budget (i : Z) : nat := S (Z.to_nat (py_len json_str - i)).

Definition opt_eqb (a b : option ascii) : bool :=
  match a, b with
  | Some x, Some y => Ascii.eqb x y
  | None, None => true
  | _, _ => false
  end.

(** [x in [a, b, ...]] *)
Definition in_list (x : option ascii) (l : list (option ascii)) : bool :=
  existsb (opt_eqb x) l.

Definition scan (P : option ascii -> bool) : M unit :=
  fun i => scan_while P (scan_budget i) i.

(** [skip_spaces_and_char]: [while self.get_char() in [char, " "]: self.index += 1]. *)
Definition skip_P (c : ascii) (ch : option ascii) : bool := in_list ch [Some c; Some " "%char].
Definition skip_spaces_and_char (c : ascii) : M unit := scan (skip_P c).

(** [parse_string] *)
Definition string_P (ch : option ascii) : bool :=
  negb (opt_eqb ch (Some dquote)) && negb (opt_eqb ch None).
Definition parse_string : M value :=
  i <- get_index ;;
  let start := i + 1 in
  advance 1 ;;
  scan string_P ;;
  end_ <- get_index ;;
  advance 1 ;;
  ret (VStr (py_slice json_str start end_)).

(** [parse_number] *)
Definition number_P (ch : option ascii) : bool :=
  negb (in_list ch [None; Some ","%char; Some " "%char; Some "}"%char; Some "]"%char]).

(** [float(num_str) if "." in num_str else int(num_str)] *)
Definition number_of_token (num_str : string) : outcome value :=
  if py_contains_char num_str "."%char then
    match py_float num_str with Some f => Ok (VFloat f) | None => Raise ValueError end
  else
    match py_int num_str with Some n => Ok (VInt n) | None => Raise ValueError end.

Definition parse_number : M value :=
  start <- get_index ;;
  scan number_P ;;
  i <- get_index ;;
  lift (number_of_token (py_slice json_str start i)).

(** [parse_boolean_or_null] *)
Definition literals : list (string * value) :=
  [("true"%string, VBool true); ("false"%string, VBool false); ("null"%string, VNone)].

Fixpoint try_literals (ls : list (string * value)) : M value :=
  match ls with
  | (lit, v) :: rest =>
      i <- get_index ;;
      if py_startswith json_str lit i
      then advance (py_len lit) ;; ret v
      else try_literals rest
  | [] =>
      i <- get_index ;;
      raise (Tidy {| error_type := UNEXPECTED_TOKEN; position := i; json_str_of := json_str |})
  end.

Definition parse_boolean_or_null : M value := try_literals literals.

(** [parse_object]: its body is only a docstring, so it returns [None]. *)
Definition parse_object : M value := ret VNone.

(** The collection under construction in [parse_collection]. *)
Inductive collection : Type :=
| CDict (kvs : list (value * value))
| CList (l : list value).

Definition collection_value (c : collection) : value :=
  match c with CDict kvs => VDict kvs | CList l => VList l end.

(** The [while] loop of [parse_collection], with a step budget; [pj] is
    [self.parse_json], [parse_func] the element parser. *)
Fixpoint collection_loop (pj : M value) (end_char : ascii) (parse_func : M value)
    (delimiter : ascii) (k : nat) (coll : collection) : M collection :=
  match k with
  | O => out_of_fuel
  | S k' =>
      ch <- get_char ;;
      if negb (opt_eqb ch (Some end_char)) && negb (opt_eqb ch None) then
        key_or_value <- parse_func ;;
        coll' <- match coll with
                 | CDict kvs =>
                     skip_spaces_and_char delimiter ;;
                     v <- pj ;;
                     kvs' <- lift (dict_setitem kvs key_or_value v) ;;
                     ret (CDict kvs')
                 | CList l => ret (CList (l ++ [key_or_value]))
                 end ;;
        skip_spaces_and_char ","%char ;;
        collection_loop pj end_char parse_func delimiter k' coll'
      else ret coll
  end.

(** [parse_collection] *)
Definition parse_collection (pj : M value) (end_char : ascii) (parse_func : M value)
    (delimiter : ascii) (fuel : nat) : M value :=
  advance 1 ;;
  let coll0 := if Ascii.eqb end_char "}"%char then CDict [] else CList [] in
  c <- collection_loop pj end_char parse_func delimiter fuel coll0 ;;
  advance 1 ;;
  ret (collection_value c).

(** [parse_array] *)
Definition parse_array (pj : M value) (fuel : nat) : M value :=
  parse_collection pj "]"%char pj ","%char fuel.

(** [parse_json]: [parse_map] sends ["{"], ["["], the double quote, ["-"], ["t"] to
    their methods; otherwise [char.isdigit()] (an [AttributeError] on
    [None]) selects [parse_number]; otherwise [UNEXPECTED_TOKEN].  The fuel
    bounds the recursion depth and the loop steps of each collection. *)
Fixpoint parse_json (n : nat) : M value :=
  match n with
  | O => out_of_fuel
  | S n' =>
      ch <- get_char ;;
      match ch with
      | Some c =>
          if Ascii.eqb c "{"%char then parse_object
          else if Ascii.eqb c "["%char then parse_array (parse_json n') n'
          else if Ascii.eqb c dquote then parse_string
          else if Ascii.eqb c "-"%char then parse_number
          else if Ascii.eqb c "t"%char then parse_boolean_or_null
          else if py_isdigit c then parse_number
          else
            i <- get_index ;;
            raise (Tidy {| error_type := UNEXPECTED_TOKEN; position := i;
                           json_str_of := json_str |})
      | None => raise AttributeError
      end
  end.

End Parser.

(** Result and final index of [parse_json] on [s] from index [0]. *)
Definition run (s : string) (fuel : nat) : outcome value * Z := parse_json s fuel 0.

(** Concatenation of string pieces, to write inputs holding double quotes. *)
Definition js (l : list string) : string := String.concat EmptyString l.

(** * Properties *)

(** ** Reading characters *)

(** The character at a non-negative index, [None] past the end. *)
Definition char_at (s : string) (i : Z) : option ascii := String.get (Z.to_nat i) s.

Lemma string_get_none (s : string) (n : nat) :
  (String.length s <= n)%nat -> String.get n s = None.
Proof.
  revert n; induction s as [|c s IH]; intros n Hn; [reflexivity|].
  destruct n as [|n]; simpl in *; [lia|]. apply IH; lia.
Qed.

Lemma string_get_some (s : string) (n : nat) :
  (n < String.length s)%nat -> exists c, String.get n s = Some c.
Proof.
  revert n; induction s as [|c s IH]; intros n Hn; simpl in *; [lia|].
  destruct n as [|n]; [eauto|]. apply IH; lia.
Qed.

Lemma get_char_nonneg (s : string) (i : Z) :
  0 <= i -> get_char s i = (Ok (char_at s i), i).
Proof.
  intros Hi. unfold get_char, py_getitem, char_at, py_len.
  destruct (Z.ltb_spec i (Z.of_nat (String.length s))) as [Hlt|Hge].
  - destruct (Z.leb_spec 0 i) as [_|]; [|lia].
    destruct (string_get_some s (Z.to_nat i)) as [c Hc]; [lia|].
    rewrite Hc. reflexivity.
  - rewrite string_get_none by lia. reflexivity.
Qed.

Lemma char_at_none (s : string) (i : Z) :
  0 <= i -> char_at s i = None -> py_len s <= i.
Proof.
  intros Hi H. unfold py_len. destruct (Z_lt_le_dec i (Z.of_nat (String.length s))); [|lia].
  destruct (string_get_some s (Z.to_nat i)) as [c Hc]; [lia|].
  unfold char_at in H. congruence.
Qed.

(** ** The scanning loops *)

Section Scan.

Variable s : string.
Variable P : option ascii -> bool.
Hypothesis P_end : P None = false.

(** From a non-negative index and with the budget [scan_budget], a scan
    stops at the first character failing [P], without error. *)
Lemma scan_while_stops (k : nat) (i : Z) :
  0 <= i -> (Z.to_nat (py_len s - i) < k)%nat ->
  exists j, i <= j
    /\ (forall m, i <= m < j -> P (char_at s m) = true)
    /\ P (char_at s j) = false
    /\ scan_while s P k i = (Ok tt, j).
Proof.
  revert i; induction k as [|k IH]; intros i Hi Hk; [lia|].
  simpl. unfold bind at 1. rewrite get_char_nonneg by exact Hi.
  destruct (P (char_at s i)) eqn:HP.
  - assert (Hlt : i < py_len s).
    { destruct (char_at s i) eqn:Hc; [|congruence].
      destruct (Z_lt_le_dec i (py_len s)) as [|Hge]; [assumption|].
      unfold char_at in Hc. rewrite string_get_none in Hc by (unfold py_len in Hge; lia).
      discriminate. }
    destruct (IH (i + 1)) as (j & Hij & Hall & Hj & Hrun); [lia|lia|].
    exists j. split; [lia|]. split; [|split; [exact Hj|]].
    + intros m Hm. destruct (Z.eq_dec m i) as [->|]; [exact HP|]. apply Hall; lia.
    + unfold bind, advance. exact Hrun.
  - exists i. split; [lia|]. split; [intros; lia|]. split; [exact HP|reflexivity].
Qed.

Lemma scan_stops (i : Z) :
  0 <= i ->
  exists j, i <= j
    /\ (forall m, i <= m < j -> P (char_at s m) = true)
    /\ P (char_at s j) = false
    /\ scan s P i = (Ok tt, j).
Proof.
  intros Hi. unfold scan, scan_budget. apply scan_while_stops; [exact Hi|lia].
Qed.

End Scan.

(** Whenever a scan returns normally, the character it stopped at fails the
    loop condition (from any index, also a negative one). *)
Lemma scan_while_exit (s : string) (P : option ascii -> bool) (k : nat) (i j : Z) :
  scan_while s P k i = (Ok tt, j) ->
  exists ch, get_char s j = (Ok ch, j) /\ P ch = false.
Proof.
  revert i; induction k as [|k IH]; intros i H; simpl in H; [discriminate|].
  unfold bind at 1 in H.
  destruct (get_char s i) as [[ch| |] i'] eqn:Hg; try discriminate.
  assert (i' = i) as ->.
  { unfold get_char in Hg. destruct (i <? py_len s); [destruct (py_getitem s i)|];
    congruence. }
  destruct (P ch) eqn:HP.
  - unfold bind, advance in H. exact (IH _ H).
  - injection H as <-. eauto.
Qed.

(** ** Well-behaved computations

    [well_behaved Q m]: from every index, [m] leaves an index no smaller than
    the one it started from, and every exception it raises satisfies [Q]. *)

Definition well_behaved {A} (Q : exn -> Prop) (m : M A) : Prop :=
  forall i, i <= snd (m i) /\ (forall x, fst (m i) = Raise x -> Q x).

Section WellBehaved.

Variable Q : exn -> Prop.
Hypothesis Q_IndexError : Q IndexError.
Hypothesis Q_ValueError : Q ValueError.
Hypothesis Q_AttributeError : Q AttributeError.
Hypothesis Q_TypeError : Q TypeError.
Hypothesis Q_unexpected : forall i s, Q (Tidy {| error_type := UNEXPECTED_TOKEN; position := i; json_str_of := s |}).

Lemma wb_ret {A} (a : A) : well_behaved Q (ret a).
Proof. intros i. split; [simpl; lia|discriminate]. Qed.

Lemma wb_raise {A} (x : exn) : Q x -> well_behaved (A := A) Q (raise x).
Proof. intros Hx i. split; [simpl; lia|intros y Hy; injection Hy as <-; exact Hx]. Qed.

Lemma wb_out_of_fuel {A} : well_behaved (A := A) Q out_of_fuel.
Proof. intros i. split; [simpl; lia|discriminate]. Qed.

Lemma wb_get_index : well_behaved Q get_index.
Proof. intros i. split; [simpl; lia|discriminate]. Qed.

Lemma wb_advance (n : Z) : 0 <= n -> well_behaved Q (advance n).
Proof. intros Hn i. split; [simpl; lia|discriminate]. Qed.

Lemma wb_lift {A} (o : outcome A) :
  (forall x, o = Raise x -> Q x) -> well_behaved Q (lift o).
Proof. intros Ho i. split; [simpl; lia|exact Ho]. Qed.

Lemma wb_get_char (s : string) : well_behaved Q (get_char s).
Proof.
  intros i. unfold get_char.
  destruct (i <? py_len s); [destruct (py_getitem s i)|];
    (split; [simpl; lia|]); intros x Hx; simpl in Hx; try discriminate.
  injection Hx as <-. exact Q_IndexError.
Qed.

Lemma wb_bind {A B} (m : M A) (k : A -> M B) :
  well_behaved Q m -> (forall a, well_behaved Q (k a)) -> well_behaved Q (bind m k).
Proof.
  intros Hm Hk i. unfold bind. destruct (Hm i) as [Hle HQ].
  destruct (m i) as [[a|x|] j]; simpl in *.
  - destruct (Hk a j) as [Hle' HQ']. split; [lia|exact HQ'].
  - split; [lia|]. intros y Hy. injection Hy as <-. exact (HQ x eq_refl).
  - split; [lia|discriminate].
Qed.

Lemma wb_scan_while (s : string) (P : option ascii -> bool) (k : nat) :
  well_behaved Q (scan_while s P k).
Proof.
  induction k as [|k IH]; simpl; [apply wb_out_of_fuel|].
  apply wb_bind; [apply wb_get_char|]. intros ch.
  destruct (P ch); [apply wb_bind; [apply wb_advance; lia|intros; exact IH]|apply wb_ret].
Qed.

Lemma wb_scan (s : string) (P : option ascii -> bool) : well_behaved Q (scan s P).
Proof. intros i. exact (wb_scan_while s P (scan_budget s i) i). Qed.

Lemma py_len_nonneg (s : string) : 0 <= py_len s.
Proof. unfold py_len. lia. Qed.

Create HintDb wb.
#[local] Hint Resolve wb_ret wb_out_of_fuel wb_get_index wb_get_char wb_scan : wb.
#[local] Hint Resolve wb_raise Q_IndexError Q_ValueError Q_AttributeError Q_TypeError Q_unexpected : wb.

(** Walk a monadic program: binds, branches, and the leaves above. *)
Ltac wb_tac :=
  repeat match goal with
  | |- well_behaved Q (bind _ _) => apply wb_bind; [|intro]
  | |- well_behaved Q (advance (py_len _)) => apply wb_advance, py_len_nonneg
  | |- well_behaved Q (advance _) => apply wb_advance; lia
  | |- well_behaved Q (if ?b then _ else _) => destruct b
  | |- well_behaved Q (match ?x with _ => _ end) => destruct x
  | |- _ => solve [auto with wb]
  end.

Lemma wb_parse_string (s : string) : well_behaved Q (parse_string s).
Proof. unfold parse_string. wb_tac. Qed.

Lemma number_of_token_raises (tok : string) (x : exn) :
  number_of_token tok = Raise x -> x = ValueError.
Proof.
  unfold number_of_token.
  destruct (py_contains_char tok "."); [destruct (py_float tok) as [f|]|destruct (py_int tok)];
    intros H; inversion H; reflexivity.
Qed.

Lemma wb_parse_number (s : string) : well_behaved Q (parse_number s).
Proof.
  unfold parse_number. wb_tac. apply wb_lift.
  intros x Hx. rewrite (number_of_token_raises _ _ Hx). exact Q_ValueError.
Qed.

Lemma wb_try_literals (s : string) (ls : list (string * value)) :
  well_behaved Q (try_literals s ls).
Proof.
  induction ls as [|[lit v] ls IH]; simpl; wb_tac.
Qed.

Lemma wb_parse_boolean_or_null (s : string) : well_behaved Q (parse_boolean_or_null s).
Proof. apply wb_try_literals. Qed.

Lemma wb_parse_object : well_behaved Q parse_object.
Proof. apply wb_ret. Qed.

Lemma wb_skip_spaces_and_char (s : string) (c : ascii) :
  well_behaved Q (skip_spaces_and_char s c).
Proof. apply wb_scan. Qed.

#[local] Hint Resolve wb_skip_spaces_and_char : wb.

Lemma wb_collection_loop (s : string) (pj : M value) (end_char : ascii) (pf : M value)
    (delimiter : ascii) (k : nat) (coll : collection) :
  well_behaved Q pj -> well_behaved Q pf ->
  well_behaved Q (collection_loop s pj end_char pf delimiter k coll).
Proof.
  intros Hpj Hpf. revert coll; induction k as [|k IH]; intros coll; simpl; wb_tac.
  - apply wb_lift. unfold dict_setitem. destruct (hashable _); intros x Hx; inversion Hx.
    exact Q_TypeError.
Qed.

Lemma wb_parse_collection (s : string) (pj : M value) (end_char : ascii) (pf : M value)
    (delimiter : ascii) (fuel : nat) :
  well_behaved Q pj -> well_behaved Q pf ->
  well_behaved Q (parse_collection s pj end_char pf delimiter fuel).
Proof.
  intros Hpj Hpf. unfold parse_collection. wb_tac.
  apply wb_collection_loop; assumption.
Qed.

Lemma wb_parse_array (s : string) (pj : M value) (fuel : nat) :
  well_behaved Q pj -> well_behaved Q (parse_array s pj fuel).
Proof. intros Hpj. apply wb_parse_collection; exact Hpj. Qed.

Lemma wb_parse_json (s : string) (n : nat) : well_behaved Q (parse_json s n).
Proof.
  induction n as [|n IH]; simpl; [apply wb_out_of_fuel|].
  apply wb_bind; [apply wb_get_char|]. intros [c|]; [|apply wb_raise; exact Q_AttributeError].
  repeat match goal with |- well_behaved Q (if ?b then _ else _) => destruct b end;
    first [ apply wb_parse_object | apply wb_parse_array; exact IH | apply wb_parse_string
          | apply wb_parse_number | apply wb_parse_boolean_or_null | wb_tac ].
Qed.

End WellBehaved.

(** ** Consequences for the whole parser *)

(** Only [UNEXPECTED_TOKEN] diagnostics are ever raised. *)
Definition only_unexpected (x : exn) : Prop :=
  forall e, x = Tidy e -> error_type e = UNEXPECTED_TOKEN.

Lemma parse_json_only_unexpected (s : string) (n : nat) (i : Z) (e : ErrorManager) :
  fst (parse_json s n i) = Raise (Tidy e) -> error_type e = UNEXPECTED_TOKEN.
Proof.
  intros H.
  refine (proj2 (wb_parse_json only_unexpected _ _ _ _ _ s n i) _ H e eq_refl);
    unfold only_unexpected; intros; try discriminate.
  match goal with H : Tidy _ = Tidy _ |- _ => injection H as <- end. reflexivity.
Qed.

Definition any_exn (x : exn) : Prop := True.

Lemma wb_any {A} (m : M A) (i : Z) :
  well_behaved any_exn m -> i <= snd (m i).
Proof. intros H. exact (proj1 (H i)). Qed.


(** ** Inversion of binds *)

Lemma bind_ok_inv {A B} (m : M A) (k : A -> M B) (i : Z) (b : B) (j : Z) :
  bind m k i = (Ok b, j) -> exists a i', m i = (Ok a, i') /\ k a i' = (Ok b, j).
Proof.
  unfold bind. destruct (m i) as [[a|x|] i']; intros H; try discriminate. eauto.
Qed.

Lemma get_char_index (s : string) (i i' : Z) (o : outcome (option ascii)) :
  get_char s i = (o, i') -> i' = i.
Proof.
  unfold get_char. destruct (i <? py_len s); [destruct (py_getitem s i)|]; congruence.
Qed.

Lemma opt_eqb_spec (a b : option ascii) : opt_eqb a b = true <-> a = b.
Proof.
  destruct a as [x|], b as [y|]; simpl; split; intros H; try discriminate; try reflexivity.
  - apply Ascii.eqb_eq in H. congruence.
  - injection H as ->. apply Ascii.eqb_refl.
Qed.

Lemma in_list_spec (x : option ascii) (l : list (option ascii)) :
  in_list x l = true <-> In x l.
Proof.
  unfold in_list. rewrite existsb_exists. split.
  - intros (y & Hy & He). apply opt_eqb_spec in He. subst. exact Hy.
  - intros Hx. exists x. split; [exact Hx|]. apply opt_eqb_spec. reflexivity.
Qed.

(** ** [parse_number] *)

(** The characters that stop the scan of [parse_number]. *)
Definition number_stops : list (option ascii) :=
  [None; Some ","%char; Some " "%char; Some "}"%char; Some "]"%char].

Lemma number_P_stops (ch : option ascii) : number_P ch = negb (in_list ch number_stops).
Proof. reflexivity. Qed.


(** ** [parse_string] *)

Lemma string_P_true (ch : option ascii) :
  string_P ch = true -> exists c, ch = Some c /\ c <> dquote.
Proof.
  unfold string_P. destruct ch as [c|]; simpl; [|discriminate].
  destruct (Ascii.eqb_spec c dquote); simpl; [discriminate|]. intros _. eauto.
Qed.

Lemma string_P_false (ch : option ascii) :
  string_P ch = false -> ch = Some dquote \/ ch = None.
Proof.
  unfold string_P. destruct ch as [c|]; simpl; [|auto].
  destruct (Ascii.eqb_spec c dquote) as [->|]; simpl; [auto|discriminate].
Qed.

Lemma parse_string_scan (s : string) (i : Z) :
  0 <= i ->
  exists e, i + 1 <= e
    /\ (forall m, i + 1 <= m < e -> exists c, char_at s m = Some c /\ c <> dquote)
    /\ (char_at s e = Some dquote \/ char_at s e = None)
    /\ parse_string s i = (Ok (VStr (py_slice s (i + 1) e)), e + 1).
Proof.
  intros Hi.
  destruct (scan_stops s string_P eq_refl (i + 1)) as (e & Hie & Hall & He & Hrun); [lia|].
  exists e. split; [exact Hie|]. split; [|split].
  - intros m Hm. exact (string_P_true _ (Hall m Hm)).
  - exact (string_P_false _ He).
  - unfold parse_string, bind, get_index, advance. rewrite Hrun. reflexivity.
Qed.

(** ** [parse_collection] ends on its end character or at end of input *)

Lemma collection_loop_exit (s : string) (pj : M value) (end_char : ascii) (pf : M value)
    (delimiter : ascii) (k : nat) (coll c : collection) (i j : Z) :
  collection_loop s pj end_char pf delimiter k coll i = (Ok c, j) ->
  exists ch, get_char s j = (Ok ch, j) /\ (ch = Some end_char \/ ch = None).
Proof.
  revert coll i; induction k as [|k IH]; intros coll i H; simpl in H; [discriminate|].
  apply bind_ok_inv in H as (ch & i1 & Hg & H).
  pose proof (get_char_index _ _ _ _ Hg) as ->.
  destruct (negb (opt_eqb ch (Some end_char)) && negb (opt_eqb ch None)) eqn:Hc.
  - apply bind_ok_inv in H as (kv & i2 & _ & H).
    apply bind_ok_inv in H as (coll' & i3 & _ & H).
    apply bind_ok_inv in H as (u & i4 & _ & H).
    exact (IH _ _ H).
  - injection H as <- <-. exists ch. split; [exact Hg|].
    apply andb_false_iff in Hc as [Hc|Hc]; apply negb_false_iff, opt_eqb_spec in Hc; auto.
Qed.

Lemma parse_collection_exit (s : string) (pj : M value) (end_char : ascii) (pf : M value)
    (delimiter : ascii) (fuel : nat) (i : Z) (v : value) (j : Z) :
  parse_collection s pj end_char pf delimiter fuel i = (Ok v, j) ->
  exists ch, get_char s (j - 1) = (Ok ch, j - 1) /\ (ch = Some end_char \/ ch = None).
Proof.
  unfold parse_collection. intros H.
  apply bind_ok_inv in H as (u & i1 & _ & H).
  apply bind_ok_inv in H as (c & i2 & Hloop & H).
  unfold bind, advance, ret in H. injection H as _ <-.
  replace (i2 + 1 - 1) with i2 by lia.
  exact (collection_loop_exit _ _ _ _ _ _ _ _ _ _ Hloop).
Qed.

(** ** Inputs used below *)

Definition obj_ab : string := js ["{"; q; "a"; q; ":1,"; q; "b"; q; ":2}"]%string.
Definition obj_aa : string := js ["{"; q; "a"; q; ":1,"; q; "a"; q; ":2}"]%string.
Definition str_abc : string := js [q; "abc"]%string.

Definition diag (t : TidyErrorType) (p : Z) (s : string) : ErrorManager :=
  {| error_type := t; position := p; json_str_of := s |}.

(** * Claims *)

(** C1 (object parsing, insertion order, last write wins).  The dispatcher
    sends ['{'] to [parse_object], whose body is only its docstring: it
    returns [None] and leaves the index at [0], for [obj_ab] (keys a, b with
    values 1, 2) as for [obj_aa] (key a twice, values 1 then 2).  The [dict]
    branch of [parse_collection], which the docstring of [parse_object]
    announces (it returns a dictionary), would map a to 2 on [obj_aa] when
    configured with the end character of objects, [parse_string] and the
    colon, but no code calls it so. *)
Theorem parse_object_yields_none :
  forall n,
    run obj_ab (S n) = (Ok VNone, 0)
    /\ run obj_aa (S n) = (Ok VNone, 0)
    /\ parse_collection obj_aa (parse_json obj_aa 10) "}"%char (parse_string obj_aa) ":"%char 10 0
       = (Ok (VDict [(VStr "a", VInt 2)]), 13).
Proof. intros n. split; [reflexivity|split; [reflexivity|vm_compute; reflexivity]]. Qed.

(** C2 (missing closing bracket), counterexample: ["[1,2"] parses to
    [[1, 2]] with the index one past the end; no error is raised. *)
Lemma unterminated_array_not_rejected :
  run "[1,2" 10 = (Ok (VList [VInt 1; VInt 2]), 5)
  /\ (forall x, fst (run "[1,2" 10) <> Raise x).
Proof. split; [vm_compute; reflexivity|intros x; vm_compute; discriminate]. Qed.

Lemma bind_ok {A B} (m : M A) (k : A -> M B) (i : Z) (a : A) (j : Z) :
  m i = (Ok a, j) -> bind m k i = k a j.
Proof. unfold bind. intros ->. reflexivity. Qed.

(** At end of input the loop of [parse_collection] stops at once, with no
    error, and returns the collection built so far. *)
Lemma collection_loop_eoi (s : string) (pj : M value) (end_char : ascii) (pf : M value)
    (delimiter : ascii) (k : nat) (coll : collection) (i : Z) :
  py_len s <= i ->
  collection_loop s pj end_char pf delimiter (S k) coll i = (Ok coll, i).
Proof.
  intros Hi. cbn [collection_loop].
  assert (Hg : get_char s i = (Ok None, i)).
  { unfold get_char. destruct (Z.ltb_spec i (py_len s)); [lia|reflexivity]. }
  rewrite (bind_ok _ _ _ _ _ Hg). cbn [opt_eqb negb]. rewrite andb_false_r. reflexivity.
Qed.

(** C2, as the code does it: the loop of [parse_collection] stops on the end
    character or at end of input, and in both cases the method advances one
    past it and returns the collection; no parse ever raises a
    [MISSING_BRACKET] diagnostic.  At end of input the loop raises nothing
    and returns the elements parsed so far, and [parse_collection] returns
    them with the index one further.  So ["[1,2"] gives [[1, 2]], index 5. *)
Theorem collection_ends_at_end_or_eoi :
  (forall s n i e, fst (parse_json s n i) = Raise (Tidy e) -> error_type e <> MISSING_BRACKET)
  /\ (forall s pj end_char pf delimiter fuel i v j,
        parse_collection s pj end_char pf delimiter fuel i = (Ok v, j) ->
        exists ch, get_char s (j - 1) = (Ok ch, j - 1) /\ (ch = Some end_char \/ ch = None))
  /\ (forall s pj end_char pf delimiter k coll i,
        py_len s <= i ->
        collection_loop s pj end_char pf delimiter (S k) coll i = (Ok coll, i))
  /\ (forall s pj end_char pf delimiter fuel i c j,
        collection_loop s pj end_char pf delimiter fuel
          (if Ascii.eqb end_char "}"%char then CDict [] else CList []) (i + 1) = (Ok c, j) ->
        parse_collection s pj end_char pf delimiter fuel i = (Ok (collection_value c), j + 1))
  /\ run "[1,2" 10 = (Ok (VList [VInt 1; VInt 2]), 5).
Proof.
  split; [|split; [|split; [|split]]].
  - intros s n i e H. rewrite (parse_json_only_unexpected s n i e H). discriminate.
  - intros. eapply parse_collection_exit. eassumption.
  - intros. apply collection_loop_eoi. assumption.
  - intros s pj end_char pf delimiter fuel i c j H. unfold parse_collection.
    rewrite (bind_ok _ _ _ _ _ (eq_refl : advance 1 i = (Ok tt, i + 1))).
    cbv zeta. rewrite (bind_ok _ _ _ _ _ H). reflexivity.
  - vm_compute. reflexivity.
Qed.

(** C3 (missing closing quote), counterexample: [str_abc] (a double quote
    and abc) parses to the string abc with the index one past the end; no
    error is raised. *)
Lemma unterminated_string_not_rejected :
  run str_abc 10 = (Ok (VStr "abc"), 5)
  /\ parse_string str_abc 0 = (Ok (VStr "abc"), 5).
Proof. split; vm_compute; reflexivity. Qed.

(** C3, as the code does it: from a non-negative index, [parse_string] reads
    from the character after the opening quote up to the first double quote
    or to the end of input, returns the text in between and advances one
    past the stopping point; it raises nothing, and no parse ever raises a
    [MISSING_QUOTE] diagnostic. *)
Theorem parse_string_reads_to_quote_or_end (s : string) (i : Z) (Hi : 0 <= i) :
  (exists e, i + 1 <= e
    /\ (forall m, i + 1 <= m < e -> exists c, char_at s m = Some c /\ c <> dquote)
    /\ (char_at s e = Some dquote \/ char_at s e = None)
    /\ parse_string s i = (Ok (VStr (py_slice s (i + 1) e)), e + 1))
  /\ (forall n e, fst (parse_json s n i) = Raise (Tidy e) -> error_type e <> MISSING_QUOTE).
Proof.
  split; [exact (parse_string_scan s i Hi)|].
  intros n e H. rewrite (parse_json_only_unexpected s n i e H). discriminate.
Qed.

Lemma parse_string_reads_to_quote_or_end_witness :
  0 <= 0 /\
  ((exists e, 0 + 1 <= e
    /\ (forall m, 0 + 1 <= m < e -> exists c, char_at str_abc m = Some c /\ c <> dquote)
    /\ (char_at str_abc e = Some dquote \/ char_at str_abc e = None)
    /\ parse_string str_abc 0 = (Ok (VStr (py_slice str_abc (0 + 1) e)), e + 1))
  /\ (forall n e, fst (parse_json str_abc n 0) = Raise (Tidy e) -> error_type e <> MISSING_QUOTE)).
Proof. split; [lia|apply (parse_string_reads_to_quote_or_end str_abc 0); lia]. Defined.

(** C4 (the three literals through the dispatcher).  [parse_map] has only
    ["t"] among the literal starts: ["true"] gives [True], but ["false"] and
    ["null"] fall through to [UNEXPECTED_TOKEN] at position [0], although
    [parse_boolean_or_null] itself parses both. *)
Theorem literal_dispatch_only_true :
  forall n,
    run "true" (S n) = (Ok (VBool true), 4)
    /\ run "false" (S n) = (Raise (Tidy (diag UNEXPECTED_TOKEN 0 "false")), 0)
    /\ run "null" (S n) = (Raise (Tidy (diag UNEXPECTED_TOKEN 0 "null")), 0)
    /\ parse_boolean_or_null "false" 0 = (Ok (VBool false), 5)
    /\ parse_boolean_or_null "null" 0 = (Ok VNone, 4).
Proof. intros n. repeat split. Qed.

(** C5 (other characters are unexpected tokens).  A character that is not
    a key of [parse_map] and not a digit raises [UNEXPECTED_TOKEN] at the
    current position (["%"] at [0], whose context is ["%"]); but at end of
    input [get_char] gives [None] and [char.isdigit()] raises
    [AttributeError] instead. *)
Theorem dispatch_end_of_input_attribute_error :
  (forall s n i, 0 <= i -> py_len s <= i -> parse_json s (S n) i = (Raise AttributeError, i))
  /\ (forall n, run "" (S n) = (Raise AttributeError, 0))
  /\ (forall s n i c, 0 <= i -> char_at s i = Some c ->
        ~ In c ["{"; "["; dquote; "-"; "t"]%char -> py_isdigit c = false ->
        parse_json s (S n) i = (Raise (Tidy (diag UNEXPECTED_TOKEN i s)), i))
  /\ (forall n, run "%" (S n) = (Raise (Tidy (diag UNEXPECTED_TOKEN 0 "%")), 0))
  /\ _get_context (diag UNEXPECTED_TOKEN 0 "%") = "%"%string.
Proof.
  split; [|split; [|split; [|split]]].
  - intros s n i Hi Hlen. simpl. unfold bind at 1. rewrite get_char_nonneg by exact Hi.
    unfold char_at. rewrite string_get_none by (unfold py_len in Hlen; lia). reflexivity.
  - reflexivity.
  - intros s n i c Hi Hc Hnot Hd. simpl. unfold bind at 1. rewrite get_char_nonneg by exact Hi.
    rewrite Hc.
    destruct (Ascii.eqb_spec c "{") as [->|]; [simpl in Hnot; tauto|].
    destruct (Ascii.eqb_spec c "[") as [->|]; [simpl in Hnot; tauto|].
    destruct (Ascii.eqb_spec c dquote) as [->|]; [simpl in Hnot; tauto|].
    destruct (Ascii.eqb_spec c "-") as [->|]; [simpl in Hnot; tauto|].
    destruct (Ascii.eqb_spec c "t") as [->|]; [simpl in Hnot; tauto|].
    rewrite Hd. reflexivity.
  - reflexivity.
  - reflexivity.
Qed.

Lemma substring_zero_len (n : nat) (s : string) : String.substring n 0 s = EmptyString.
Proof. revert n; induction s as [|c s IH]; intros [|n]; simpl; auto. Qed.

Lemma substring_full (s : string) : String.substring 0 (String.length s) s = s.
Proof. induction s as [|c s IH]; simpl; [reflexivity|now rewrite IH]. Qed.

(** C6 (context snippet).  [_get_context] is the Python slice
    [json_str[max(0, position-10) : min(len(json_str), position+10)]]; for a
    non-negative position this is the substring between those two bounds
    (empty when they cross), and for a 5-character source and position 4
    it is the whole source. *)
Theorem get_context_window :
  (forall t p s, _get_context (diag t p s)
                 = py_slice s (Z.max 0 (p - 10)) (Z.min (py_len s) (p + 10)))
  /\ (forall t p s, 0 <= p ->
        _get_context (diag t p s)
        = String.substring (Z.to_nat (Z.max 0 (p - 10)))
            (Z.to_nat (Z.min (py_len s) (p + 10) - Z.max 0 (p - 10))) s)
  /\ (forall t s, String.length s = 5%nat -> _get_context (diag t 4 s) = s).
Proof.
  split; [|split].
  - reflexivity.
  - intros t p s Hp. unfold _get_context, py_slice, py_slice_bound, diag; simpl.
    pose proof (py_len_nonneg s) as Hl.
    set (a := Z.max 0 (p - 10)). set (b := Z.min (py_len s) (p + 10)).
    assert (Ha : 0 <= a) by (unfold a; lia).
    assert (Hb : 0 <= b <= py_len s) by (unfold b; lia).
    destruct (Z.ltb_spec a 0) as [|_]; [lia|].
    destruct (Z.ltb_spec b 0) as [|_]; [lia|].
    replace (Z.min b (py_len s)) with b by lia.
    destruct (Z.ltb_spec (Z.min a (py_len s)) b) as [Hlt|Hge].
    + replace (Z.min a (py_len s)) with a by lia. reflexivity.
    + replace (Z.to_nat (b - a)) with 0%nat by lia. symmetry. apply substring_zero_len.
  - intros t s H5. unfold _get_context, py_slice, py_slice_bound, diag, py_len; simpl.
    rewrite H5. simpl.
    transitivity (String.substring 0 (String.length s) s); [rewrite H5; reflexivity|apply substring_full].
Qed.







(** C9 (the index never decreases).  Every method of the parser leaves the
    index at least where it found it; from a non-negative start it stays
    non-negative. *)
Theorem index_monotone :
  forall s n i,
    i <= snd (parse_json s n i)
    /\ (0 <= i -> 0 <= snd (parse_json s n i))
    /\ i <= snd (parse_array s (parse_json s n) n i)
    /\ (forall end_char delimiter,
          i <= snd (parse_collection s (parse_json s n) end_char (parse_json s n) delimiter n i))
    /\ i <= snd (parse_object i)
    /\ i <= snd (parse_string s i)
    /\ i <= snd (parse_number s i)
    /\ i <= snd (parse_boolean_or_null s i)
    /\ (forall c, i <= snd (skip_spaces_and_char s c i))
    /\ i <= snd (get_char s i).
Proof.
  intros s n i.
  assert (Hpj : well_behaved any_exn (parse_json s n))
    by (apply wb_parse_json; intros; exact I).
  pose proof (wb_any _ i Hpj) as Hj.
  split; [exact Hj|]. split; [lia|].
  repeat match goal with |- _ /\ _ => split end; intros; apply wb_any;
    first [ apply wb_parse_array | apply wb_parse_collection | apply wb_parse_object
          | apply wb_parse_string | apply wb_parse_number | apply wb_parse_boolean_or_null
          | apply wb_skip_spaces_and_char | apply wb_get_char ];
    solve [exact Hpj | intros; exact I].
Qed.

(** C10 (separators and spaces are skipped in runs).  Whenever
    [skip_spaces_and_char c] returns, the current character is neither [c]
    nor a space; so a doubled comma or a space in place of a comma between
    array elements is accepted: ["[1,,2]"] and ["[1 2]"] give [[1, 2]]. *)
Theorem skip_stops_at_other_char :
  (forall s c i j, skip_spaces_and_char s c i = (Ok tt, j) ->
     exists ch, get_char s j = (Ok ch, j) /\ ch <> Some c /\ ch <> Some " "%char)
  /\ run "[1,,2]" 10 = (Ok (VList [VInt 1; VInt 2]), 6)
  /\ run "[1 2]" 10 = (Ok (VList [VInt 1; VInt 2]), 5).
Proof.
  split; [|split; vm_compute; reflexivity].
  intros s c i j H.
  destruct (scan_while_exit _ _ _ _ _ H) as (ch & Hg & HP).
  exists ch. split; [exact Hg|].
  unfold skip_P in HP.
  split; intros ->; rewrite (proj2 (in_list_spec _ _)) in HP; try discriminate; simpl; auto.
Qed.

(** * Further properties of the parser *)

(** ** Strings built by concatenation *)

Lemma length_app (a b : string) :
  String.length (a ++ b)%string = (String.length a + String.length b)%nat.
Proof. induction a as [|c a IH]; simpl; congruence. Qed.

Lemma get_app_l (a b : string) (n : nat) :
  (n < String.length a)%nat -> String.get n (a ++ b)%string = String.get n a.
Proof.
  revert n; induction a as [|c a IH]; intros n Hn; simpl in *; [lia|].
  destruct n as [|n]; [reflexivity|]. apply IH; lia.
Qed.

Lemma get_app_r (a b : string) (n : nat) :
  String.get (String.length a + n) (a ++ b)%string = String.get n b.
Proof. induction a as [|c a IH]; simpl; auto. Qed.

Lemma char_at_app_r (a b : string) (k : Z) :
  0 <= k -> char_at (a ++ b)%string (py_len a + k) = char_at b k.
Proof.
  intros Hk. unfold char_at, py_len.
  replace (Z.to_nat (Z.of_nat (String.length a) + k)) with (String.length a + Z.to_nat k)%nat by lia.
  apply get_app_r.
Qed.

Lemma char_at_app_l (a b : string) (k : Z) :
  0 <= k < py_len a -> char_at (a ++ b)%string k = char_at a k.
Proof. intros Hk. unfold char_at, py_len in *. apply get_app_l. lia. Qed.

Lemma py_len_app (a b : string) : py_len (a ++ b)%string = py_len a + py_len b.
Proof. unfold py_len. rewrite length_app. lia. Qed.

Lemma substring_app_r (a b : string) (n m : nat) :
  String.substring (String.length a + n) m (a ++ b)%string = String.substring n m b.
Proof. induction a as [|c a IH]; simpl; auto. Qed.

Lemma substring_prefix (a b : string) :
  String.substring 0 (String.length a) (a ++ b)%string = a.
Proof. induction a as [|c a IH]; simpl; [apply substring_zero_len|now rewrite IH]. Qed.

(** A slice with bounds inside the string is its substring. *)
Lemma py_slice_inside (s : string) (a b : Z) :
  0 <= a < b -> b <= py_len s ->
  py_slice s a b = String.substring (Z.to_nat a) (Z.to_nat (b - a)) s.
Proof.
  intros Hab Hb. unfold py_slice, py_slice_bound.
  destruct (Z.ltb_spec a 0); [lia|]. destruct (Z.ltb_spec b 0); [lia|].
  rewrite (Z.min_l a) by lia. rewrite (Z.min_l b) by lia.
  destruct (Z.ltb_spec a b); [reflexivity|lia].
Qed.

(** The slice [s[len(pre) : len(pre) + len(d)]] of [pre ++ d ++ rest]. *)
Lemma py_slice_middle (pre d rest : string) :
  d <> EmptyString ->
  py_slice (pre ++ d ++ rest)%string (py_len pre) (py_len pre + py_len d) = d.
Proof.
  intros Hd.
  assert (0 < py_len d) by (destruct d; [congruence|unfold py_len; simpl; lia]).
  assert (Hl : py_len (pre ++ d ++ rest)%string = py_len pre + py_len d + py_len rest)
    by (rewrite !py_len_app; lia).
  pose proof (py_len_nonneg pre). pose proof (py_len_nonneg rest).
  rewrite py_slice_inside by lia.
  unfold py_len. replace (Z.to_nat (Z.of_nat (String.length pre))) with (String.length pre + 0)%nat by lia.
  rewrite substring_app_r.
  replace (Z.to_nat (Z.of_nat (String.length pre) + Z.of_nat (String.length d)
                     - Z.of_nat (String.length pre))) with (String.length d) by lia.
  apply substring_prefix.
Qed.

(** ** A scan ending at a known index *)

(** From a non-negative index, a scan whose condition holds on [i..j-1]
    and fails at [j] ends at [j]. *)
Lemma scan_at (s : string) (P : option ascii -> bool) (i j : Z) :
  P None = false -> 0 <= i -> i <= j ->
  (forall m, i <= m < j -> P (char_at s m) = true) -> P (char_at s j) = false ->
  scan s P i = (Ok tt, j).
Proof.
  intros HN Hi Hij Hall Hj.
  destruct (scan_stops s P HN i Hi) as (j0 & Hij0 & Hall0 & Hj0 & Hrun).
  rewrite Hrun. f_equal.
  destruct (Z.lt_total j0 j) as [Hlt|[->|Hgt]]; [|reflexivity|].
  - rewrite (Hall j0) in Hj0 by lia. discriminate.
  - rewrite (Hall0 j) in Hj by lia. discriminate.
Qed.

Lemma parse_number_at (s : string) (i j : Z) :
  0 <= i -> i <= j ->
  (forall m, i <= m < j -> ~ In (char_at s m) number_stops) -> In (char_at s j) number_stops ->
  parse_number s i = (number_of_token (py_slice s i j), j).
Proof.
  intros Hi Hij Hall Hj.
  assert (Hscan : scan s number_P i = (Ok tt, j)).
  { apply scan_at; auto.
    - intros m Hm. rewrite number_P_stops. destruct (in_list _ _) eqn:E; [|reflexivity].
      apply in_list_spec in E. exfalso. exact (Hall m Hm E).
    - rewrite number_P_stops. apply in_list_spec in Hj. rewrite Hj. reflexivity. }
  unfold parse_number, bind, get_index. rewrite Hscan. reflexivity.
Qed.

(** ** Character classes, checked over all 256 characters *)

Definition all_chars (p : ascii -> bool) : bool :=
  forallb (fun n => p (ascii_of_nat n)) (seq 0 256).

Lemma all_chars_spec (p : ascii -> bool) : all_chars p = true -> forall c, p c = true.
Proof.
  intros H c. unfold all_chars in H. rewrite forallb_forall in H.
  rewrite <- (ascii_nat_embedding c). apply H. apply in_seq.
  pose proof (nat_ascii_bounded c). lia.
Qed.

(** Characters of the decimal rendering of an [int]. *)
Definition numch (c : ascii) : bool := is_decimal c || Ascii.eqb c "-".

Definition numch_facts (c : ascii) : bool :=
  implb (numch c)
    (negb (py_isspace c) && negb (py_num_space c) && negb (Ascii.eqb c "{") && negb (Ascii.eqb c "[")
     && negb (Ascii.eqb c dquote) && negb (Ascii.eqb c "t") && negb (Ascii.eqb c "]")
     && negb (Ascii.eqb c ",") && negb (Ascii.eqb c " ") && negb (Ascii.eqb c "}")
     && negb (Ascii.eqb c ".") && negb (Ascii.eqb c "+")
     && implb (is_decimal c) (py_isdigit c && negb (Ascii.eqb c "-"))).

Lemma numch_facts_all : forall c, numch_facts c = true.
Proof. apply all_chars_spec. vm_compute. reflexivity. Qed.

Ltac numch_fact c Hc F :=
  pose proof (numch_facts_all c) as F; unfold numch_facts in F; rewrite Hc in F;
  simpl in F; repeat rewrite andb_true_iff in F; repeat rewrite negb_true_iff in F.

Lemma digit_char (k : nat) :
  (k < 10)%nat ->
  is_decimal (ascii_of_nat (48 + k)) = true /\ digit_value (ascii_of_nat (48 + k)) = Z.of_nat k.
Proof.
  intros Hk. unfold is_decimal, digit_value.
  rewrite nat_ascii_embedding by lia. split; [|lia].
  apply andb_true_iff. split; apply Nat.leb_le; lia.
Qed.

(** ** [str(n)] is read back by [int] *)

Definition dval (l : list ascii) (acc : Z) : Z :=
  fold_left (fun a c => a * 10 + digit_value c) l acc.

Lemma nat_digits_spec (f n : nat) (acc : string) :
  (n < f)%nat ->
  exists dl, list_ascii_of_string (nat_digits f n acc) = dl ++ list_ascii_of_string acc
    /\ dl <> [] /\ Forall (fun c => is_decimal c = true) dl /\ dval dl 0 = Z.of_nat n
    /\ 10 ^ (Z.of_nat (length dl) - 1) <= Z.max 1 (Z.of_nat n).
Proof.
  revert n acc; induction f as [|f IH]; intros n acc Hn; [lia|].
  cbn [nat_digits]. destruct (digit_char (n mod 10)) as [Hd Hv]; [apply Nat.mod_upper_bound; lia|].
  destruct (Nat.ltb_spec n 10) as [Hlt|Hge].
  - exists [ascii_of_nat (48 + n mod 10)]. split; [reflexivity|].
    split; [discriminate|]. split; [constructor; [exact Hd|constructor]|].
    split; [unfold dval; cbn [fold_left]; rewrite Hv; rewrite Nat.mod_small by lia; lia|].
    cbn [length]. replace (Z.of_nat 1 - 1) with 0 by lia. simpl. lia.
  - destruct (IH (n / 10)%nat (String (ascii_of_nat (48 + n mod 10)) acc))
      as (dl & Hl & Hne & Hall & Hval & Hlead).
    { assert ((n / 10) < n)%nat by (apply Nat.div_lt; lia). lia. }
    exists (dl ++ [ascii_of_nat (48 + n mod 10)]). rewrite Hl.
    split; [rewrite <- app_assoc; reflexivity|].
    split; [destruct dl; simpl; congruence|].
    split; [apply Forall_app; split; [exact Hall|constructor; [exact Hd|constructor]]|].
    pose proof (Nat.div_mod_eq n 10) as Hdm. pose proof (Nat.mod_upper_bound n 10) as Hmu.
    split.
    + unfold dval in *. rewrite fold_left_app. cbn [fold_left]. rewrite Hval, Hv. lia.
    + rewrite List.length_app. cbn [length].
      assert (n / 10 >= 1)%nat by (apply Nat.div_le_lower_bound; lia).
      destruct dl as [|c dl']; [congruence|].
      replace (Z.of_nat (length (c :: dl') + 1) - 1)
        with (Z.succ (Z.of_nat (length (c :: dl')) - 1)) by lia.
      rewrite Z.pow_succ_r by (cbn [length]; lia). lia.
Qed.

Lemma py_str_int_spec (z : Z) :
  exists dl, list_ascii_of_string (py_str_int z) = (if z <? 0 then ["-"%char] else []) ++ dl
    /\ dl <> [] /\ Forall (fun c => is_decimal c = true) dl /\ dval dl 0 = Z.abs z
    /\ 10 ^ (Z.of_nat (length dl) - 1) <= Z.max 1 (Z.abs z).
Proof.
  unfold py_str_int.
  destruct (nat_digits_spec (S (Z.to_nat (Z.abs z))) (Z.to_nat (Z.abs z)) EmptyString)
    as (dl & Hl & Hne & Hall & Hval & Hlead); [lia|].
  exists dl. simpl in Hl. rewrite app_nil_r in Hl.
  destruct (z <? 0); simpl; rewrite Hl; (split; [reflexivity|]); repeat split; auto; lia.
Qed.

Lemma lstrip_nospace (l : list ascii) :
  Forall (fun c => py_num_space c = false) l -> lstrip l = l.
Proof. intros H. destruct H as [|c l Hc _]; simpl; [reflexivity|]. now rewrite Hc. Qed.

Lemma digitpart_rest_dec (l : list ascii) (acc cnt : Z) :
  Forall (fun c => is_decimal c = true) l ->
  digitpart_rest l acc cnt = (dval l acc, cnt + Z.of_nat (length l), []).
Proof.
  revert acc cnt; induction l as [|c l IH]; intros acc cnt H; simpl; [f_equal; f_equal; lia|].
  inversion H as [|? ? Hc Hl]; subst. rewrite Hc. rewrite IH by exact Hl.
  unfold dval. simpl. f_equal. f_equal. lia.
Qed.

Lemma py_str_int_chars (z : Z) :
  Forall (fun c => numch c = true) (list_ascii_of_string (py_str_int z)).
Proof.
  destruct (py_str_int_spec z) as (dl & Hl & _ & Hall & _). rewrite Hl.
  apply Forall_app. split.
  - destruct (z <? 0); repeat constructor.
  - eapply Forall_impl; [|exact Hall]. intros c Hc. unfold numch. rewrite Hc. reflexivity.
Qed.

Lemma py_int_py_str_int (z : Z) :
  Z.abs z < 10 ^ int_max_str_digits -> py_int (py_str_int z) = Some z.
Proof.
  intros Hz.
  destruct (py_str_int_spec z) as (dl & Hl & Hne & Hall & Hval & Hlead).
  pose proof (py_str_int_chars z) as Hch.
  assert (Hlen : Z.of_nat (length dl) <= int_max_str_digits).
  { assert (Hlt : 10 ^ (Z.of_nat (length dl) - 1) < 10 ^ int_max_str_digits).
    { assert (1 < 10 ^ int_max_str_digits) by (apply Z.pow_gt_1; unfold int_max_str_digits; lia).
      lia. }
    apply Z.pow_lt_mono_r_iff in Hlt; [lia|lia|unfold int_max_str_digits; lia]. }
  assert (Hns : forall l, Forall (fun c => numch c = true) l ->
                 Forall (fun c => py_num_space c = false) l).
  { intros l Hf. eapply Forall_impl; [|exact Hf]. intros c Hc. numch_fact c Hc F. tauto. }
  unfold py_int, strip.
  rewrite (lstrip_nospace (list_ascii_of_string (py_str_int z))) by (apply Hns; exact Hch).
  rewrite (lstrip_nospace (rev (list_ascii_of_string (py_str_int z))))
    by (apply Hns, Forall_rev; exact Hch).
  rewrite rev_involutive. rewrite Hl.
  destruct dl as [|c r]; [congruence|].
  inversion Hall as [|? ? Hc Hr]; subst.
  assert (Hcn : numch c = true) by (unfold numch; rewrite Hc; reflexivity).
  assert (Hcnt : (1 + Z.of_nat (length r) <=? int_max_str_digits) = true)
    by (apply Z.leb_le; cbn [length] in Hlen; lia).
  destruct (Z.ltb_spec z 0); simpl.
  - unfold digitpart. rewrite Hc, digitpart_rest_dec by exact Hr. rewrite Hcnt.
    unfold dval in *. cbn [fold_left] in Hval.
    replace (0 * 10 + digit_value c) with (digit_value c) in Hval by lia.
    f_equal. rewrite Hval. destruct z; simpl in *; lia.
  - numch_fact c Hcn F. repeat match goal with H : _ /\ _ |- _ => destruct H end.
    match goal with H : implb _ _ = true |- _ => rewrite Hc in H; simpl in H;
      apply andb_true_iff in H as [_ Hm]; apply negb_true_iff in Hm; rewrite Hm end.
    match goal with H : (c =? "+")%char = false |- _ => rewrite H end.
    unfold digitpart. rewrite Hc, digitpart_rest_dec by exact Hr. rewrite Hcnt.
    unfold dval in *. cbn [fold_left] in Hval.
    replace (0 * 10 + digit_value c) with (digit_value c) in Hval by lia.
    f_equal. lia.
Qed.

Lemma get_list (s : string) (n : nat) :
  String.get n s = nth_error (list_ascii_of_string s) n.
Proof. revert n; induction s as [|c s IH]; intros [|n]; simpl; auto. Qed.

Lemma py_len_list (s : string) : py_len s = Z.of_nat (length (list_ascii_of_string s)).
Proof. unfold py_len. f_equal. induction s as [|c s IH]; simpl; congruence. Qed.

Lemma py_str_int_at (z m : Z) :
  0 <= m < py_len (py_str_int z) ->
  exists c, char_at (py_str_int z) m = Some c /\ numch c = true.
Proof.
  intros Hm. unfold char_at. rewrite get_list.
  rewrite py_len_list in Hm.
  destruct (nth_error (list_ascii_of_string (py_str_int z)) (Z.to_nat m)) as [c|] eqn:E.
  - exists c. split; [reflexivity|].
    pose proof (py_str_int_chars z) as Hf. rewrite Forall_forall in Hf.
    apply Hf. eapply nth_error_In. exact E.
  - apply nth_error_None in E. lia.
Qed.

Lemma py_str_int_len (z : Z) : 0 < py_len (py_str_int z).
Proof.
  destruct (py_str_int_spec z) as (dl & Hl & Hne & _).
  rewrite py_len_list, Hl. destruct dl; [congruence|]. rewrite List.length_app. simpl. lia.
Qed.

Lemma py_str_int_no_point (z : Z) : py_contains_char (py_str_int z) "."%char = false.
Proof.
  unfold py_contains_char. destruct (existsb _ _) eqn:E; [|reflexivity].
  apply existsb_exists in E as (c & Hin & Hc). apply Ascii.eqb_eq in Hc. subst c.
  pose proof (py_str_int_chars z) as Hf. rewrite Forall_forall in Hf.
  specialize (Hf _ Hin). discriminate.
Qed.

Lemma number_of_token_int (z : Z) :
  Z.abs z < 10 ^ int_max_str_digits -> number_of_token (py_str_int z) = Ok (VInt z).
Proof.
  intros Hz. unfold number_of_token. rewrite py_str_int_no_point, py_int_py_str_int by exact Hz.
  reflexivity.
Qed.

(** The dispatcher sends a digit or a minus sign to [parse_number]. *)
Lemma parse_json_numch (s : string) (n : nat) (i : Z) (c : ascii) :
  0 <= i -> char_at s i = Some c -> numch c = true ->
  parse_json s (S n) i = parse_number s i.
Proof.
  intros Hi Hc Hn. cbn [parse_json]. rewrite (bind_ok _ _ _ _ _ (get_char_nonneg s i Hi)).
  rewrite Hc.
  numch_fact c Hn F. repeat match goal with H : _ /\ _ |- _ => destruct H end.
  repeat match goal with H : (c =? _)%char = false |- _ => rewrite H end.
  destruct (Ascii.eqb c "-") eqn:Em; [reflexivity|].
  unfold numch in Hn. rewrite Em, orb_false_r in Hn.
  match goal with H : implb _ _ = true |- _ => rewrite Hn in H; simpl in H;
    apply andb_true_iff in H as [Hd _]; rewrite Hd end.
  reflexivity.
Qed.

Lemma string_app_assoc (a b c : string) : (a ++ b ++ c)%string = ((a ++ b) ++ c)%string.
Proof. induction a as [|x a IH]; simpl; congruence. Qed.

(** [",".join(map(str, ns)) + "]"]: the text after the opening bracket of
    the rendering of a list of integers. *)
Fixpoint int_items (ns : list Z) : string :=
  match ns with
  | [] => "]"
  | n :: ns' =>
      (py_str_int n ++ match ns' with [] => "]" | _ => "," ++ int_items ns' end)%string
  end.

Lemma int_items_first (ns : list Z) (rest : string) :
  ns <> [] -> exists c, char_at (int_items ns ++ rest)%string 0 = Some c /\ numch c = true.
Proof.
  destruct ns as [|n ns]; [congruence|]. intros _. simpl int_items.
  destruct (py_str_int_at n 0) as (c & Hc & Hn); [pose proof (py_str_int_len n); lia|].
  exists c. split; [|exact Hn].
  rewrite <- string_app_assoc. rewrite char_at_app_l by (pose proof (py_str_int_len n); lia).
  exact Hc.
Qed.

Definition numch_stops (c : ascii) : bool :=
  implb (numch c)
    (negb (in_list (Some c) number_stops) && negb (skip_P ","%char (Some c))
     && negb (opt_eqb (Some c) (Some "]"%char))).

Lemma numch_stops_all : forall c, numch_stops c = true.
Proof. apply all_chars_spec. vm_compute. reflexivity. Qed.

Lemma numch_stops_facts (c : ascii) :
  numch c = true ->
  ~ In (Some c) number_stops /\ skip_P ","%char (Some c) = false
  /\ opt_eqb (Some c) (Some "]"%char) = false.
Proof.
  intros Hn. pose proof (numch_stops_all c) as F. unfold numch_stops in F.
  rewrite Hn in F. cbn [implb] in F. apply andb_true_iff in F as [F F3].
  apply andb_true_iff in F as [F1 F2]. apply negb_true_iff in F1, F2, F3.
  split; [|split; assumption]. rewrite <- in_list_spec, F1. discriminate.
Qed.

Lemma bind_ret {A B} (a : A) (k : A -> M B) (i : Z) : bind (ret a) k i = k a i.
Proof. reflexivity. Qed.

(** One step of the array loop over an integer item: the item is read by
    [parse_number] and appended, then the loop goes on at the delimiter. *)
Lemma loop_int_item (s pre rest : string) (n : Z) (m k : nat) (l : list value) :
  Z.abs n < 10 ^ int_max_str_digits ->
  s = (pre ++ py_str_int n ++ rest)%string -> In (char_at rest 0) number_stops ->
  collection_loop s (parse_json s (S m)) "]" (parse_json s (S m)) "," (S k) (CList l) (py_len pre)
  = bind (skip_spaces_and_char s ",")
      (fun _ => collection_loop s (parse_json s (S m)) "]" (parse_json s (S m)) "," k
                  (CList (l ++ [VInt n]))) (py_len pre + py_len (py_str_int n)).
Proof.
  intros Hz Hs Hr.
  pose proof (py_str_int_len n) as Hd. pose proof (py_len_nonneg pre) as Hp.
  assert (HF1 : forall x, 0 <= x < py_len (py_str_int n) ->
                 char_at s (py_len pre + x) = char_at (py_str_int n) x).
  { intros x Hx. rewrite Hs, char_at_app_r by lia. apply char_at_app_l. lia. }
  assert (HF2 : char_at s (py_len pre + py_len (py_str_int n)) = char_at rest 0).
  { rewrite Hs, char_at_app_r by lia.
    rewrite <- (Z.add_0_r (py_len (py_str_int n))) at 1. apply char_at_app_r. lia. }
  destruct (py_str_int_at n 0) as (c0 & Hc0 & Hn0); [lia|].
  assert (Hc : char_at s (py_len pre) = Some c0).
  { rewrite <- (Z.add_0_r (py_len pre)), HF1 by lia. exact Hc0. }
  assert (Hpn : parse_json s (S m) (py_len pre)
                = (Ok (VInt n), py_len pre + py_len (py_str_int n))).
  { rewrite (parse_json_numch s m (py_len pre) c0 Hp Hc Hn0).
    rewrite (parse_number_at s (py_len pre) (py_len pre + py_len (py_str_int n))); [| lia | lia | |].
    - assert (Hsl : py_slice s (py_len pre) (py_len pre + py_len (py_str_int n)) = py_str_int n).
      { rewrite Hs. apply py_slice_middle. intros He. rewrite He in Hd. unfold py_len in Hd.
        simpl in Hd. lia. }
      rewrite Hsl, (number_of_token_int n Hz). reflexivity.
    - intros x Hx. replace x with (py_len pre + (x - py_len pre)) by lia.
      rewrite HF1 by lia.
      destruct (py_str_int_at n (x - py_len pre)) as (c & -> & Hn); [lia|].
      apply numch_stops_facts. exact Hn.
    - rewrite HF2. exact Hr. }
  cbn [collection_loop].
  rewrite (bind_ok _ _ _ _ _ (get_char_nonneg s (py_len pre) Hp)). rewrite Hc.
  cbv beta. destruct (numch_stops_facts c0 Hn0) as (_ & _ & Hb). rewrite Hb.
  cbn [negb andb opt_eqb].
  rewrite (bind_ok _ _ _ _ _ Hpn). cbv beta iota. rewrite bind_ret. reflexivity.
Qed.

Lemma char_at_app_len (a b : string) : char_at (a ++ b)%string (py_len a) = char_at b 0.
Proof. rewrite <- (Z.add_0_r (py_len a)). apply char_at_app_r. lia. Qed.

(** At the closing bracket the array loop stops without moving. *)
Lemma loop_at_end (s : string) (pj pf : M value) (d : ascii) (k : nat) (coll : collection) (i : Z) :
  0 <= i -> char_at s i = Some "]"%char ->
  collection_loop s pj "]" pf d (S k) coll i = (Ok coll, i).
Proof.
  intros Hi Hc. cbn [collection_loop].
  rewrite (bind_ok _ _ _ _ _ (get_char_nonneg s i Hi)), Hc. reflexivity.
Qed.

Lemma int_items_one (n : Z) : int_items [n] = (py_str_int n ++ "]")%string.
Proof. reflexivity. Qed.

Lemma int_items_cons2 (n n2 : Z) (ns : list Z) :
  int_items (n :: n2 :: ns) = (py_str_int n ++ "," ++ int_items (n2 :: ns))%string.
Proof. reflexivity. Qed.

Lemma py_len_int_items (ns : list Z) : 0 < py_len (int_items ns).
Proof.
  destruct ns as [|n [|n2 ns]]; [reflexivity| |].
  - rewrite int_items_one, py_len_app. pose proof (py_str_int_len n).
    change (py_len "]") with 1. lia.
  - rewrite int_items_cons2, !py_len_app. pose proof (py_str_int_len n).
    pose proof (py_len_nonneg (int_items (n2 :: ns))). change (py_len ",") with 1. lia.
Qed.

(** The array loop over the items of a rendered integer list reads every
    integer and stops at the closing bracket. *)
Lemma int_items_loop (ns : list Z) : forall s pre post l k m,
  s = (pre ++ int_items ns ++ post)%string ->
  Forall (fun z => Z.abs z < 10 ^ int_max_str_digits) ns -> (length ns < k)%nat ->
  collection_loop s (parse_json s (S m)) "]" (parse_json s (S m)) "," k (CList l) (py_len pre)
  = (Ok (CList (l ++ map VInt ns)), py_len pre + py_len (int_items ns) - 1).
Proof.
  induction ns as [|n ns IH]; intros s pre post l k m Hs Hb Hk;
    pose proof (py_len_nonneg pre) as Hp.
  - destruct k as [|k]; [simpl in Hk; lia|].
    rewrite loop_at_end; [|exact Hp|rewrite Hs; apply char_at_app_len].
    rewrite app_nil_r. f_equal. change (py_len (int_items [])) with 1. lia.
  - pose proof (py_str_int_len n) as Hd.
    pose proof (Forall_inv Hb) as Hz. pose proof (Forall_inv_tail Hb) as Hb'.
    destruct k as [|k]; [simpl in Hk; lia|].
    destruct ns as [|n2 ns].
    + rewrite int_items_one, <- string_app_assoc in Hs.
      rewrite (loop_int_item s pre ("]" ++ post) n m k l Hz Hs)
        by (right; right; right; right; left; reflexivity).
      assert (Hj : char_at s (py_len pre + py_len (py_str_int n)) = Some "]"%char).
      { rewrite Hs, char_at_app_r, char_at_app_len by lia. reflexivity. }
      assert (Hscan : skip_spaces_and_char s "," (py_len pre + py_len (py_str_int n))
                      = (Ok tt, py_len pre + py_len (py_str_int n))).
      { apply scan_at; [reflexivity|lia|lia|intros; lia|rewrite Hj; reflexivity]. }
      rewrite (bind_ok _ _ _ _ _ Hscan).
      destruct k as [|k]; [simpl in Hk; lia|].
      rewrite loop_at_end by (exact Hj || lia).
      rewrite int_items_one, py_len_app. change (py_len "]") with 1.
      f_equal. lia.
    + assert (Hs' : s = (pre ++ py_str_int n ++ "," ++ int_items (n2 :: ns) ++ post)%string).
      { rewrite Hs, int_items_cons2, <- !string_app_assoc. reflexivity. }
      assert (Hs'' : s = ((pre ++ py_str_int n ++ ",") ++ int_items (n2 :: ns) ++ post)%string).
      { rewrite Hs', <- !string_app_assoc. reflexivity. }
      rewrite (loop_int_item s pre _ n m k l Hz Hs') by (right; left; reflexivity).
      assert (Hl' : py_len (pre ++ py_str_int n ++ ",")%string
                    = py_len pre + py_len (py_str_int n) + 1)
        by (rewrite !py_len_app; change (py_len ",") with 1; lia).
      assert (Hj : char_at s (py_len pre + py_len (py_str_int n)) = Some ","%char).
      { rewrite Hs', char_at_app_r, char_at_app_len by lia. reflexivity. }
      destruct (int_items_first (n2 :: ns) post) as (c & Hc & Hn); [congruence|].
      assert (Hj1 : char_at s (py_len pre + py_len (py_str_int n) + 1) = Some c).
      { rewrite <- Hl', Hs'', char_at_app_len. exact Hc. }
      assert (Hscan : skip_spaces_and_char s "," (py_len pre + py_len (py_str_int n))
                      = (Ok tt, py_len pre + py_len (py_str_int n) + 1)).
      { apply scan_at; [reflexivity|lia|lia| |].
        - intros x Hx. replace x with (py_len pre + py_len (py_str_int n)) by lia.
          rewrite Hj. reflexivity.
        - rewrite Hj1. apply numch_stops_facts. exact Hn. }
      rewrite (bind_ok _ _ _ _ _ Hscan), <- Hl'.
      rewrite (IH s _ post (l ++ [VInt n]) k m Hs'' Hb') by (simpl in Hk |- *; lia).
      rewrite <- app_assoc. f_equal.
      rewrite Hl', int_items_cons2, !py_len_app. change (py_len ",") with 1. lia.
Qed.

(** Round trip: the text ["[" + ",".join(map(str, ns)) + "]"], followed by
    anything, is parsed to the list of the integers [ns]; the index stops
    right after the closing bracket, the trailing text is not read. *)
Theorem int_array_roundtrip (ns : list Z) (post : string) (n : nat) :
  Forall (fun z => Z.abs z < 10 ^ int_max_str_digits) ns -> (length ns + 1 < n)%nat ->
  parse_json ("[" ++ int_items ns ++ post)%string n 0
  = (Ok (VList (map VInt ns)), 1 + py_len (int_items ns)).
Proof.
  intros Hb Hn. destruct n as [|[|m]]; [lia|lia|].
  set (s := ("[" ++ int_items ns ++ post)%string).
  cbn [parse_json].
  rewrite (bind_ok _ _ _ _ _ (get_char_nonneg s 0 ltac:(lia))).
  change (char_at s 0) with (Some "["%char). cbv beta iota.
  replace (Ascii.eqb "[" "{") with false by reflexivity.
  replace (Ascii.eqb "[" "[") with true by reflexivity.
  unfold parse_array, parse_collection.
  rewrite (bind_ok _ _ _ _ _ (eq_refl : advance 1 0 = (Ok tt, 0 + 1))).
  cbv beta zeta. replace (Ascii.eqb "]" "}") with false by reflexivity.
  change (0 + 1) with (py_len "[").
  rewrite (bind_ok _ _ _ _ _ (int_items_loop ns s "[" post [] (S m) m eq_refl Hb ltac:(lia))).
  change (py_len "[") with 1. cbv [advance bind ret collection_value app].
  f_equal. lia.
Qed.

Definition ints_ex : list Z := [1; -23; 0].

Lemma int_array_roundtrip_witness :
  Forall (fun z => Z.abs z < 10 ^ int_max_str_digits) ints_ex /\
  (length ints_ex + 1 < 6)%nat /\
  parse_json ("[" ++ int_items ints_ex ++ "]")%string 6 0
  = (Ok (VList (map VInt ints_ex)), 1 + py_len (int_items ints_ex)).
Proof.
  assert (Hb : Forall (fun z => Z.abs z < 10 ^ int_max_str_digits) ints_ex)
    by (unfold ints_ex; repeat constructor).
  split; [exact Hb|]. split; [unfold ints_ex; simpl; lia|].
  apply int_array_roundtrip; [exact Hb|unfold ints_ex; simpl; lia].
Defined.

(** ** Strings without a double quote are read back *)

Lemma no_char_at (t : string) (d : ascii) (k : Z) :
  py_contains_char t d = false -> 0 <= k < py_len t ->
  exists c, char_at t k = Some c /\ c <> d.
Proof.
  intros Hq Hk. unfold char_at. rewrite get_list. rewrite py_len_list in Hk.
  destruct (nth_error (list_ascii_of_string t) (Z.to_nat k)) as [c|] eqn:E.
  - exists c. split; [reflexivity|]. intros ->.
    unfold py_contains_char in Hq. rewrite <- Bool.not_true_iff_false in Hq. apply Hq.
    apply existsb_exists. exists d. split; [eapply nth_error_In; exact E|apply Ascii.eqb_refl].
  - apply nth_error_None in E. lia.
Qed.

Lemma py_slice_empty (s : string) (a : Z) : py_slice s a a = EmptyString.
Proof. unfold py_slice. rewrite Z.ltb_irrefl. reflexivity. Qed.

(** A double-quoted text [t] holding no double quote, at the index where
    the dispatcher is called, is parsed to the string [t]; the index ends
    right after the closing quote. *)
Theorem string_roundtrip (pre t post : string) (n : nat) :
  py_contains_char t dquote = false ->
  parse_json (pre ++ q ++ t ++ q ++ post)%string (S n) (py_len pre)
  = (Ok (VStr t), py_len pre + py_len t + 2).
Proof.
  intros Hq. set (s := (pre ++ q ++ t ++ q ++ post)%string).
  pose proof (py_len_nonneg pre) as Hp. pose proof (py_len_nonneg t) as Ht.
  assert (Hs : s = ((pre ++ q) ++ t ++ q ++ post)%string)
    by (unfold s; apply string_app_assoc).
  assert (Hpq : py_len (pre ++ q)%string = py_len pre + 1)
    by (rewrite py_len_app; reflexivity).
  assert (Hscan : scan s string_P (py_len pre + 1) = (Ok tt, py_len pre + 1 + py_len t)).
  { apply scan_at; [reflexivity|lia|lia| |].
    - intros m Hm. replace m with (py_len (pre ++ q) + (m - py_len pre - 1)) by lia.
      rewrite Hs, char_at_app_r, char_at_app_l by lia.
      destruct (no_char_at t dquote (m - py_len pre - 1) Hq) as (c & -> & Hc); [lia|].
      unfold string_P. cbn [opt_eqb]. destruct (Ascii.eqb_spec c dquote); [congruence|].
      reflexivity.
    - replace (py_len pre + 1 + py_len t) with (py_len (pre ++ q) + (py_len t + 0)) by lia.
      rewrite Hs, char_at_app_r, char_at_app_r by lia. reflexivity. }
  assert (Hc : char_at s (py_len pre) = Some dquote)
    by (unfold s; rewrite char_at_app_len; reflexivity).
  cbn [parse_json]. rewrite (bind_ok _ _ _ _ _ (get_char_nonneg s _ Hp)), Hc.
  cbv beta iota.
  replace (Ascii.eqb dquote "{") with false by reflexivity.
  replace (Ascii.eqb dquote "[") with false by reflexivity.
  rewrite Ascii.eqb_refl.
  unfold parse_string, bind, get_index, advance, ret. rewrite Hscan.
  f_equal; [|lia]. f_equal. f_equal.
  destruct (Z.eq_dec (py_len t) 0) as [H0|H0].
  - rewrite H0, Z.add_0_r, py_slice_empty.
    destruct t; [reflexivity|unfold py_len in H0; simpl in H0; lia].
  - rewrite <- Hpq, Hs. apply py_slice_middle. intros ->. apply H0. reflexivity.
Qed.

Lemma string_roundtrip_witness :
  py_contains_char "a b:c" dquote = false /\
  parse_json ("x" ++ q ++ "a b:c" ++ q ++ "]")%string 1 (py_len "x")
  = (Ok (VStr "a b:c"), py_len "x" + py_len "a b:c" + 2).
Proof. split; [reflexivity|]. apply string_roundtrip. reflexivity. Defined.

(** ** Literals *)

Lemma try_literals_ok (s : string) (ls : list (string * value)) (i j : Z) (v : value) :
  try_literals s ls i = (Ok v, j) ->
  exists lit, In (lit, v) ls /\ j = i + py_len lit /\ py_startswith s lit i = true.
Proof.
  induction ls as [|[lit w] ls IH]; cbn [try_literals]; unfold bind, get_index, raise.
  - discriminate.
  - destruct (py_startswith s lit i) eqn:E.
    + unfold advance, ret. intros H. injection H as <- <-.
      exists lit. split; [left; reflexivity|auto].
    + intros H. destruct (IH H) as (l & Hin & Hj & Hst). exists l. split; [right; exact Hin|auto].
Qed.


Lemma startswith_slice (s lit : string) (i : Z) :
  0 <= i -> lit <> EmptyString -> py_startswith s lit i = true ->
  py_slice s i (i + py_len lit) = lit.
Proof.
  intros Hi Hne Hst. unfold py_startswith in Hst.
  destruct (Z.ltb_spec i 0); [lia|].
  apply andb_true_iff in Hst as [Hle Heq]. apply Z.leb_le in Hle. apply String.eqb_eq in Heq.
  assert (0 < py_len lit) by (destruct lit; [congruence|unfold py_len; simpl; lia]).
  rewrite py_slice_inside by lia.
  replace (Z.to_nat (i + py_len lit - i)) with (String.length lit) by (unfold py_len; lia).
  exact Heq.
Qed.

(** When [parse_boolean_or_null] returns a value, the text it consumed is
    one of the literals [true], [false], [null], the one of that value. *)
Theorem parse_boolean_or_null_consumes_literal (s : string) (i j : Z) (v : value) :
  0 <= i -> parse_boolean_or_null s i = (Ok v, j) ->
  exists lit, In (lit, v) literals /\ j = i + py_len lit /\ py_slice s i j = lit.
Proof.
  intros Hi H. destruct (try_literals_ok s literals i j v H) as (lit & Hin & Hj & Hst).
  exists lit. split; [exact Hin|split; [exact Hj|]]. subst j.
  apply startswith_slice; auto.
  simpl in Hin. intros ->. repeat destruct Hin as [Hin|Hin]; try discriminate; contradiction.
Qed.

Lemma parse_boolean_or_null_consumes_literal_witness :
  0 <= 2 /\ parse_boolean_or_null "[ null]" 2 = (Ok VNone, 6) /\
  exists lit, In (lit, VNone) literals /\ 6 = 2 + py_len lit /\ py_slice "[ null]" 2 6 = lit.
Proof.
  split; [lia|]. split; [reflexivity|].
  apply parse_boolean_or_null_consumes_literal; [lia|reflexivity].
Defined.



(** The dispatcher reads [true] anywhere: the literal is parsed to [True]
    and the index moves past its four characters. *)
Theorem true_roundtrip (pre post : string) (n : nat) :
  parse_json (pre ++ "true" ++ post)%string (S n) (py_len pre)
  = (Ok (VBool true), py_len pre + 4).
Proof.
  set (s := (pre ++ "true" ++ post)%string). pose proof (py_len_nonneg pre) as Hp.
  assert (Hc : char_at s (py_len pre) = Some "t"%char)
    by (unfold s; rewrite char_at_app_len; reflexivity).
  cbn [parse_json]. rewrite (bind_ok _ _ _ _ _ (get_char_nonneg s _ Hp)), Hc.
  cbv beta iota.
  replace (Ascii.eqb "t" "{") with false by reflexivity.
  replace (Ascii.eqb "t" "[") with false by reflexivity.
  replace (Ascii.eqb "t" dquote) with false by reflexivity.
  replace (Ascii.eqb "t" "-") with false by reflexivity.
  replace (Ascii.eqb "t" "t") with true by reflexivity.
  assert (Hst : py_startswith s "true" (py_len pre) = true).
  { unfold py_startswith. destruct (Z.ltb_spec (py_len pre) 0); [lia|].
    unfold s. rewrite !py_len_app. apply andb_true_iff. split.
    - apply Z.leb_le. pose proof (py_len_nonneg post). change (py_len "true") with 4. lia.
    - apply String.eqb_eq. unfold py_len. rewrite Nat2Z.id.
      replace (String.length pre) with (String.length pre + 0)%nat by lia.
      rewrite substring_app_r. apply (substring_prefix "true" post). }
  unfold parse_boolean_or_null, literals. cbn [try_literals].
  unfold bind, get_index. rewrite Hst. reflexivity.
Qed.

(** ** Characters the dispatcher rejects *)

(** Whether [parse_json] hands the character to a parsing method. *)
Definition dispatch_key (c : ascii) : bool :=
  Ascii.eqb c "{" || Ascii.eqb c "[" || Ascii.eqb c dquote || Ascii.eqb c "-"
  || Ascii.eqb c "t" || py_isdigit c.

Lemma parse_json_reject (s : string) (n : nat) (i : Z) (c : ascii) :
  0 <= i -> char_at s i = Some c -> dispatch_key c = false ->
  parse_json s (S n) i
  = (Raise (Tidy {| error_type := UNEXPECTED_TOKEN; position := i; json_str_of := s |}), i).
Proof.
  intros Hi Hc Hk. unfold dispatch_key in Hk.
  repeat rewrite orb_false_iff in Hk.
  destruct Hk as [[[[[H1 H2] H3] H4] H5] H6].
  cbn [parse_json]. rewrite (bind_ok _ _ _ _ _ (get_char_nonneg s _ Hi)), Hc.
  cbv beta iota. rewrite H1, H2, H3, H4, H5, H6. reflexivity.
Qed.

Definition space_not_key (c : ascii) : bool := implb (py_isspace c) (negb (dispatch_key c)).

Lemma space_not_key_all : forall c, space_not_key c = true.
Proof. apply all_chars_spec. vm_compute. reflexivity. Qed.

(** The dispatcher does not skip whitespace: a whitespace character where
    a value starts (as in [[ 1]] or a leading blank) is an
    [UNEXPECTED_TOKEN] at its index. *)
Theorem parse_json_rejects_space (s : string) (n : nat) (i : Z) (c : ascii) :
  0 <= i -> char_at s i = Some c -> py_isspace c = true ->
  parse_json s (S n) i
  = (Raise (Tidy {| error_type := UNEXPECTED_TOKEN; position := i; json_str_of := s |}), i).
Proof.
  intros Hi Hc Hs. apply (parse_json_reject s n i c Hi Hc).
  pose proof (space_not_key_all c) as H. unfold space_not_key in H. rewrite Hs in H.
  apply negb_true_iff. exact H.
Qed.

Lemma parse_json_rejects_space_witness :
  0 <= 0 /\ char_at (String (ascii_of_nat 10) "1") 0 = Some (ascii_of_nat 10)
  /\ py_isspace (ascii_of_nat 10) = true /\
  parse_json (String (ascii_of_nat 10) "1") 3 0
  = (Raise (Tidy {| error_type := UNEXPECTED_TOKEN; position := 0;
                    json_str_of := String (ascii_of_nat 10) "1" |}), 0).
Proof.
  split; [lia|]. split; [reflexivity|]. split; [reflexivity|].
  apply (parse_json_rejects_space _ 2 0 (ascii_of_nat 10)); [lia|reflexivity|reflexivity].
Defined.

(** ** An array whose first element is an object never ends *)

Lemma bind_out_of_fuel {A B} (m : M A) (k : A -> M B) (i j : Z) :
  m i = (OutOfFuel, j) -> bind m k i = (OutOfFuel, j).
Proof. unfold bind. intros ->. reflexivity. Qed.

Lemma parse_json_brace (s : string) (n : nat) (i : Z) :
  0 <= i -> char_at s i = Some "{"%char -> parse_json s (S n) i = (Ok VNone, i).
Proof.
  intros Hi Hc. cbn [parse_json]. rewrite (bind_ok _ _ _ _ _ (get_char_nonneg s _ Hi)), Hc.
  reflexivity.
Qed.

(** [parse_object] does not move the index, so the array loop reads the
    same [{] again and again, until the budget runs out. *)
Lemma loop_on_brace (s : string) (n : nat) (i : Z) :
  0 <= i -> char_at s i = Some "{"%char ->
  forall k l, fst (collection_loop s (parse_json s n) "]" (parse_json s n) "," k (CList l) i)
              = OutOfFuel.
Proof.
  intros Hi Hc k. induction k as [|k IH]; intros l; [reflexivity|].
  cbn [collection_loop]. rewrite (bind_ok _ _ _ _ _ (get_char_nonneg s _ Hi)), Hc.
  cbv beta. replace (negb (opt_eqb (Some "{"%char) (Some "]"%char))
                     && negb (opt_eqb (Some "{"%char) None)) with true by reflexivity.
  destruct n as [|n].
  - rewrite (bind_out_of_fuel _ _ i i); reflexivity.
  - rewrite (bind_ok _ _ _ _ _ (parse_json_brace s n i Hi Hc)). cbv beta iota.
    rewrite bind_ret.
    assert (Hscan : skip_spaces_and_char s "," i = (Ok tt, i)).
    { apply scan_at; [reflexivity|lia|lia|intros; lia|rewrite Hc; reflexivity]. }
    rewrite (bind_ok _ _ _ _ _ Hscan). apply IH.
Qed.

(** On [[{] the dispatcher never returns: whatever the budget, it runs out
    (the Python code loops forever there). *)
Theorem parse_json_diverges_on_array_of_object (s : string) (n : nat) (i : Z) :
  0 <= i -> char_at s i = Some "["%char -> char_at s (i + 1) = Some "{"%char ->
  fst (parse_json s n i) = OutOfFuel.
Proof.
  intros Hi Hb Hc. destruct n as [|n]; [reflexivity|].
  cbn [parse_json]. rewrite (bind_ok _ _ _ _ _ (get_char_nonneg s _ Hi)), Hb.
  cbv beta iota.
  replace (Ascii.eqb "[" "{") with false by reflexivity.
  replace (Ascii.eqb "[" "[") with true by reflexivity.
  unfold parse_array, parse_collection.
  rewrite (bind_ok _ _ _ _ _ (eq_refl : advance 1 i = (Ok tt, i + 1))).
  cbv beta zeta. replace (Ascii.eqb "]" "}") with false by reflexivity.
  pose proof (loop_on_brace s n (i + 1) ltac:(lia) Hc n []) as H.
  destruct (collection_loop s (parse_json s n) "]" (parse_json s n) "," n (CList []) (i + 1))
    as [o j] eqn:E.
  simpl in H. subst o. rewrite (bind_out_of_fuel _ _ _ j E). reflexivity.
Qed.

Lemma parse_json_diverges_on_array_of_object_witness :
  0 <= 0 /\ char_at "[{}]" 0 = Some "["%char /\ char_at "[{}]" (0 + 1) = Some "{"%char /\
  fst (parse_json "[{}]" 50 0) = OutOfFuel.
Proof.
  split; [lia|]. split; [reflexivity|]. split; [reflexivity|].
  apply parse_json_diverges_on_array_of_object; [lia|reflexivity|reflexivity].
Defined.

(** ** The context snippet of an error *)

Lemma substring_length (n m : nat) (s : string) :
  (n + m <= String.length s)%nat -> String.length (String.substring n m s) = m.
Proof.
  revert n m; induction s as [|c s IH]; intros n m H; simpl in *.
  - destruct n, m; simpl; lia.
  - destruct n as [|n].
    + destruct m as [|m]; simpl; [reflexivity|]. f_equal. rewrite (IH 0%nat m) by lia. reflexivity.
    + apply IH. lia.
Qed.

Lemma substring_get (n m k : nat) (s : string) :
  (k < m)%nat -> (n + m <= String.length s)%nat ->
  String.get k (String.substring n m s) = String.get (n + k) s.
Proof.
  revert n m k; induction s as [|c s IH]; intros n m k Hk H; simpl in *; [lia|].
  destruct n as [|n].
  - destruct m as [|m]; [lia|]. destruct k as [|k]; simpl; [reflexivity|].
    apply (IH 0%nat m k); lia.
  - apply IH; lia.
Qed.

(** For an error at a non-negative position [p], the context snippet has
    at most 20 characters, and when [p] is inside the text the snippet
    shows the character at [p], at offset [min(p, 10)] of the snippet. *)
Theorem get_context_snippet (e : ErrorManager) :
  0 <= position e ->
  py_len (_get_context e) <= 20
  /\ (position e < py_len (json_str_of e) ->
      char_at (_get_context e) (Z.min (position e) 10) = char_at (json_str_of e) (position e)).
Proof.
  destruct e as [t p s]. simpl. intros Hp. unfold _get_context, py_slice, py_slice_bound. simpl.
  pose proof (py_len_nonneg s) as Hs.
  destruct (Z.ltb_spec (Z.max 0 (p - 10)) 0); [lia|].
  destruct (Z.ltb_spec (Z.min (py_len s) (p + 10)) 0); [lia|].
  set (a := Z.min (Z.max 0 (p - 10)) (py_len s)).
  set (b := Z.min (Z.min (py_len s) (p + 10)) (py_len s)).
  destruct (Z.ltb_spec a b) as [Hab|Hab].
  - assert (Hl : (Z.to_nat a + Z.to_nat (b - a) <= String.length s)%nat)
      by (unfold py_len in *; lia).
    split.
    + unfold py_len at 1. rewrite substring_length by exact Hl. lia.
    + intros Hps. unfold char_at. rewrite substring_get by (unfold py_len in *; lia).
      f_equal. lia.
  - split; [unfold py_len; simpl; lia|]. intros Hps. lia.
Qed.

Definition err_ex : ErrorManager := diag UNEXPECTED_TOKEN 3 "0123456789abcdefghij0123".

Lemma get_context_snippet_witness :
  0 <= position err_ex /\ py_len (_get_context err_ex) <= 20
  /\ (position err_ex < py_len (json_str_of err_ex) ->
      char_at (_get_context err_ex) (Z.min (position err_ex) 10)
      = char_at (json_str_of err_ex) (position err_ex)).
Proof. split; [simpl; lia|]. apply get_context_snippet. simpl; lia. Defined.

(** ** The message of an error gives back its position *)

Lemma append_cancel_l (a x y : string) : (a ++ x)%string = (a ++ y)%string -> x = y.
Proof. induction a as [|c a IH]; simpl; [auto|intros H; injection H; auto]. Qed.

Lemma numch_prefix_unique (x y r1 r2 : string) :
  Forall (fun c => numch c = true) (list_ascii_of_string x) ->
  Forall (fun c => numch c = true) (list_ascii_of_string y) ->
  (x ++ String " " r1)%string = (y ++ String " " r2)%string -> x = y.
Proof.
  revert y; induction x as [|c x IH]; intros [|d y] Hx Hy H; simpl in *.
  - reflexivity.
  - injection H as <- _. inversion Hy. discriminate.
  - injection H as -> _. inversion Hx. discriminate.
  - injection H as -> H. inversion Hx; inversion Hy. f_equal. auto.
Qed.

Lemma py_str_int_inj (x y : Z) : py_str_int x = py_str_int y -> x = y.
Proof.
  intros H. apply (f_equal list_ascii_of_string) in H.
  destruct (py_str_int_spec x) as (dx & Hx & Hnx & Hax & Hvx & _).
  destruct (py_str_int_spec y) as (dy & Hy & Hny & Hay & Hvy & _).
  rewrite Hx, Hy in H.
  assert (Hm : forall d, Forall (fun c => is_decimal c = true) d -> d <> [] ->
               exists c r, d = c :: r /\ c <> "-"%char).
  { intros [|c r] Hd Hne; [congruence|]. exists c, r. split; [reflexivity|].
    inversion Hd as [|? ? Hc _]; subst. intros ->. discriminate. }
  destruct (Hm dx Hax Hnx) as (cx & rx & -> & Hcx).
  destruct (Hm dy Hay Hny) as (cy & ry & -> & Hcy).
  destruct (Z.ltb_spec x 0), (Z.ltb_spec y 0); simpl in H; injection H; intros; subst;
    try congruence; lia.
Qed.

(** Two errors of the same type with the same message have the same
    position: the message prints [str(position)] right after
    [at position: ] and before a blank, and distinct integers print
    differently. *)
Theorem error_message_position (e1 e2 : ErrorManager) (msg : string) :
  error_type e1 = error_type e2 -> error_message e1 = Some msg -> error_message e2 = Some msg ->
  position e1 = position e2.
Proof.
  destruct e1 as [t1 p1 s1], e2 as [t2 p2 s2]. simpl. intros <- H1 H2.
  unfold error_message, py_str in H1, H2. cbn [error_type position json_str_of] in H1, H2.
  destruct (_ <=? int_max_str_digits) in H1; [|discriminate].
  destruct (_ <=? int_max_str_digits) in H2; [|discriminate].
  rewrite <- H2 in H1.
  apply (f_equal (fun o => match o with Some x => x | None => EmptyString end)) in H1.
  cbv beta iota in H1. rename H1 into H.
  do 4 apply append_cancel_l in H.
  apply numch_prefix_unique in H; [|apply py_str_int_chars|apply py_str_int_chars].
  apply py_str_int_inj. exact H.
Qed.

(** The message of the error at position 30 of ["abc"] and of ["xyz"]
    (the context is empty in both). *)
Definition msg30 : string :=
  ("TidyErrorType.MISSING_QUOTE " ++ nl ++ " at position: 30 " ++ nl ++ " context: ")%string.

Lemma error_message_position_witness :
  error_type (diag MISSING_QUOTE 30 "abc") = error_type (diag MISSING_QUOTE 30 "xyz")
  /\ error_message (diag MISSING_QUOTE 30 "abc") = Some msg30
  /\ error_message (diag MISSING_QUOTE 30 "xyz") = Some msg30
  /\ position (diag MISSING_QUOTE 30 "abc") = position (diag MISSING_QUOTE 30 "xyz").
Proof.
  assert (H1 : error_message (diag MISSING_QUOTE 30 "abc") = Some msg30)
    by (vm_compute; reflexivity).
  assert (H2 : error_message (diag MISSING_QUOTE 30 "xyz") = Some msg30)
    by (vm_compute; reflexivity).
  split; [reflexivity|]. split; [exact H1|]. split; [exact H2|].
  apply (error_message_position _ _ msg30); [reflexivity|exact H1|exact H2].
Defined.

(** * The [TidyJSON] front end and the construction of [TidyJSONParser]

    Both classes are [attrs] classes ([@define], keyword-only): the
    generated [__init__] takes exactly the fields declared with
    [init=True] as keywords (here all without default, so all required),
    then runs [__attrs_pre_init__] and [__attrs_post_init__].  The file
    system and the standard decoder are left abstract. *)

(** Python objects stored in the attributes: a JSON-like value or a [Path]. *)
Inductive pyobj : Type :=
| PVal (v : value)
| PPath (p : string).

(** Exceptions of the front end; [FOSError] stands for what [open] raises. *)
Inductive fexn : Type := FTypeError | FValueError | FOSError.

Inductive fres (A : Type) : Type :=
| FOk (a : A)
| FRaise (e : fexn).
Arguments FOk {A} a.
Arguments FRaise {A} e.

Definition fbind {A B} (m : fres A) (k : A -> fres B) : fres B :=
  match m with FOk a => k a | FRaise e => FRaise e end.

(** [bool(v)] *)
Definition value_truthy (v : value) : bool :=
  match v with
  | VNone => false
  | VBool b => b
  | VInt n => negb (n =? 0)
  | VFloat (PFinite _ m _) => negb (m =? 0)
  | VFloat (PInf _) => true
  | VStr s => negb (String.eqb s EmptyString)
  | VList l => match l with [] => false | _ => true end
  | VDict kvs => match kvs with [] => false | _ => true end
  end.

Definition truthy (o : pyobj) : bool :=
  match o with PVal v => value_truthy v | PPath _ => true end.

(** [Path(x)]: a [str] or a [Path]; anything else, [None] included, is a [TypeError]. *)
Definition py_Path (o : pyobj) : fres string :=
  match o with
  | PVal (VStr s) => FOk s
  | PPath p => FOk p
  | PVal _ => FRaise FTypeError
  end.

(** Keyword binding of an [attrs] [__init__] whose [init] fields are [fields]. *)
Definition attrs_binds (fields kwargs : list string) : bool :=
  forallb (fun k => existsb (String.eqb k) fields) kwargs
  && forallb (fun f => existsb (String.eqb f) kwargs) fields.

(** [json.dump]'s keyword parameters; other keywords go on to
    [JSONEncoder.__init__], which takes none besides these. *)
Definition dump_params : list string :=
  ["obj"; "fp"; "skipkeys"; "ensure_ascii"; "check_circular"; "allow_nan"; "cls";
   "indent"; "separators"; "default"; "sort_keys"]%string.

Definition json_dump_call (kwargs : list string) : fres unit :=
  if forallb (fun k => existsb (String.eqb k) dump_params) kwargs then FOk tt
  else FRaise FTypeError.

Record tidy_state : Type := {
  json_input : pyobj;
  json : pyobj;
  save_path : pyobj }.

Definition kwarg (kwargs : list (string * pyobj)) (name : string) : pyobj :=
  match find (fun p => String.eqb (fst p) name) kwargs with
  | Some (_, v) => v
  | None => PVal VNone
  end.

Section Facade.

(** [Path(p).is_file()] *)
Variable is_file : string -> bool.
(** [open(file, mode)]: the exception it raises, if any. *)
Variable open_file : pyobj -> string -> option fexn.
(** [JSONDecoder.__init__] as called by [__attrs_pre_init__]. *)
Variable decoder_init : list (string * pyobj) -> fres unit.
(** [JSONDecoder.decode] *)
Variable std_decode : pyobj -> fres pyobj.
(** [json.load] and [json.loads], reached only with a decoder class. *)
Variable json_load : string -> fres pyobj.
Variable json_loads : pyobj -> fres pyobj.
(** [json.dumps(obj, ...)] *)
Variable json_dumps : pyobj -> fres pyobj.

(** [postprocess]: [self.parse_json(parsed_json)], but [parse_json] takes no
    argument besides [self]: a [TypeError]. *)
Definition postprocess (parsed_json : pyobj) : fres pyobj := FRaise FTypeError.

Definition parser_fields : list string := ["json_str"; "index"]%string.

(** [TidyJSONParser(...)] with keywords [kwargs], giving [json_out]: keyword binding,
    [__attrs_pre_init__], then [__attrs_post_init__] (standard decoding of
    [json_str], then [postprocess]). *)
Definition parser_new (kwargs : list (string * pyobj)) : fres pyobj :=
  if attrs_binds parser_fields (map fst kwargs) then
    fbind (decoder_init kwargs) (fun _ =>
    fbind (std_decode (kwarg kwargs "json_str")) (fun pyjson_processed =>
    postprocess pyjson_processed))
  else FRaise FTypeError.

(** [TidyJSON._check_for_file] *)
Definition _check_for_file (st : tidy_state) : fres bool :=
  fbind (py_Path (json_input st)) (fun p => FOk (is_file p)).

(** [TidyJSON.__attrs_post_init__] *)
Definition tidy_post_init (st : tidy_state) : fres tidy_state :=
  fbind (_check_for_file st) (fun b =>
    if b then
      fbind (py_Path (json_input st)) (fun p =>
        FOk {| json_input := PPath p; json := json st; save_path := save_path st |})
    else FOk st).

(** [TidyJSON(...)] with keywords [kwargs]: the three fields have [init=False], so no keyword
    is accepted; they start at [None]. *)
Definition tidy_new (kwargs : list string) : fres tidy_state :=
  if attrs_binds [] kwargs then
    tidy_post_init {| json_input := PVal VNone; json := PVal VNone; save_path := PVal VNone |}
  else FRaise FTypeError.

Definition strict_false : list (string * pyobj) := [("strict"%string, PVal (VBool false))].

(** [_load_file]: [open] the path, then build the decoder class argument. *)
Definition _load_file (st : tidy_state) : fres pyobj :=
  fbind (py_Path (json_input st)) (fun p =>
    match open_file (PPath p) "r" with
    | Some e => FRaise e
    | None => fbind (parser_new strict_false) (fun _ => json_load p)
    end).

(** [_load_string] *)
Definition _load_string (st : tidy_state) : fres pyobj :=
  fbind (parser_new strict_false) (fun _ => json_loads (json_input st)).

(** [decode]: the result and the object's attributes afterwards. *)
Definition decode (st : tidy_state) : fres pyobj * tidy_state :=
  if negb (truthy (json_input st)) then (FRaise FValueError, st)
  else
    match _check_for_file st with
    | FRaise e => (FRaise e, st)
    | FOk is_f =>
        match (if is_f then _load_file st else _load_string st) with
        | FOk v => (FOk v, {| json_input := json_input st; json := v; save_path := save_path st |})
        | FRaise e => (FRaise e, st)
        end
    end.

(** [encode]: the result, and the files opened for writing (so truncated). *)
Definition encode (st : tidy_state) : fres pyobj * list pyobj :=
  if truthy (save_path st) then
    match open_file (save_path st) "w" with
    | Some e => (FRaise e, [])
    | None =>
        match json_dump_call ["obj"; "fp"; "indent"; "strict"]%string with
        | FOk _ => (FOk (PVal VNone), [save_path st])
        | FRaise e => (FRaise e, [save_path st])
        end
    end
  else if truthy (json st) then
    (* [json.dumps(strict=False)]: the required [obj] is missing *)
    (FRaise FTypeError, [])
  else (FRaise FValueError, []).

(** A [TidyJSON] object cannot be created: [TidyJSON()] calls
    [Path(None)] in [__attrs_post_init__], and any keyword (such as
    [json_input=...]) is refused by [__init__]; both raise [TypeError]. *)
Theorem tidy_new_type_error (kwargs : list string) : tidy_new kwargs = FRaise FTypeError.
Proof.
  unfold tidy_new, attrs_binds. destruct kwargs as [|k ks]; reflexivity.
Qed.

(** A [TidyJSONParser] is never built: wrong keywords (such as
    [strict=False]) raise [TypeError], and otherwise [postprocess] does,
    if the steps before it did not raise already. *)
Theorem parser_new_never_ok (kwargs : list (string * pyobj)) :
  (exists e, parser_new kwargs = FRaise e)
  /\ (forall v, parser_new [("strict"%string, v)] = FRaise FTypeError).
Proof.
  split.
  - unfold parser_new. destruct (attrs_binds _ _); [|eauto].
    unfold fbind. destruct (decoder_init kwargs); [|eauto].
    destruct (std_decode (kwarg kwargs "json_str")); unfold postprocess; eauto.
  - intros v. reflexivity.
Qed.

Lemma parser_new_strict : parser_new strict_false = FRaise FTypeError.
Proof. reflexivity. Qed.

(** [decode] never returns and never sets [json]: a falsy [json_input]
    is a [ValueError], and otherwise building the decoder class
    [TidyJSONParser(strict=False)] raises, if [Path] or [open] did not. *)
Theorem decode_never_returns (st : tidy_state) :
  exists e, decode st = (FRaise e, st) /\ (truthy (json_input st) = false -> e = FValueError).
Proof.
  unfold decode. destruct (truthy (json_input st)) eqn:T; cbn [negb].
  - destruct (_check_for_file st) as [is_f|e]; [|exists e; split; [reflexivity|discriminate]].
    destruct is_f.
    + unfold _load_file. destruct (py_Path (json_input st)) as [p|e]; cbn [fbind];
        [|exists e; split; [reflexivity|discriminate]].
      destruct (open_file (PPath p) "r") as [e|];
        [exists e; split; [reflexivity|discriminate]|].
      rewrite parser_new_strict. exists FTypeError. split; [reflexivity|discriminate].
    + unfold _load_string. rewrite parser_new_strict.
      exists FTypeError. split; [reflexivity|discriminate].
  - exists FValueError. split; reflexivity.
Qed.

(** [encode] never returns a value.  Without a save path it raises
    [TypeError] when [json] is truthy ([json.dumps] lacks its object) and
    [ValueError] otherwise; with one, once [open(save_path, "w")] has
    truncated the file, [json.dump] raises [TypeError] on [strict] and the
    file is left empty. *)
Theorem encode_never_returns (st : tidy_state) :
  (exists e, fst (encode st) = FRaise e)
  /\ (truthy (save_path st) = false ->
      encode st = (FRaise (if truthy (json st) then FTypeError else FValueError), []))
  /\ (truthy (save_path st) = true -> open_file (save_path st) "w" = None ->
      encode st = (FRaise FTypeError, [save_path st])).
Proof.
  unfold encode. split; [|split].
  - destruct (truthy (save_path st)); [destruct (open_file _ _)|destruct (truthy (json st))];
      simpl; eauto.
  - intros ->. destruct (truthy (json st)); reflexivity.
  - intros -> ->. reflexivity.
Qed.

End Facade.

(** ** Reading an integer in place *)

Lemma parse_json_int_at (pre post : string) (z : Z) (n : nat) :
  Z.abs z < 10 ^ int_max_str_digits -> In (char_at post 0) number_stops ->
  parse_json (pre ++ py_str_int z ++ post)%string (S n) (py_len pre)
  = (Ok (VInt z), py_len pre + py_len (py_str_int z)).
Proof.
  intros Hz Hr. set (s := (pre ++ py_str_int z ++ post)%string).
  pose proof (py_str_int_len z) as Hd. pose proof (py_len_nonneg pre) as Hp.
  assert (HF1 : forall x, 0 <= x < py_len (py_str_int z) ->
                 char_at s (py_len pre + x) = char_at (py_str_int z) x).
  { intros x Hx. unfold s. rewrite char_at_app_r by lia. apply char_at_app_l. lia. }
  destruct (py_str_int_at z 0) as (c0 & Hc0 & Hn0); [lia|].
  assert (Hc : char_at s (py_len pre) = Some c0).
  { rewrite <- (Z.add_0_r (py_len pre)), HF1 by lia. exact Hc0. }
  rewrite (parse_json_numch s n (py_len pre) c0 Hp Hc Hn0).
  rewrite (parse_number_at s (py_len pre) (py_len pre + py_len (py_str_int z))); [| lia | lia | |].
  - unfold s. rewrite py_slice_middle, (number_of_token_int z Hz); [reflexivity|].
    intros He. rewrite He in Hd. unfold py_len in Hd. simpl in Hd. lia.
  - intros x Hx. replace x with (py_len pre + (x - py_len pre)) by lia.
    rewrite HF1 by lia.
    destruct (py_str_int_at z (x - py_len pre)) as (c & -> & Hn); [lia|].
    apply numch_stops_facts. exact Hn.
  - unfold s. rewrite char_at_app_r, char_at_app_len by lia. exact Hr.
Qed.

(** [str(z)] for any integer [z], where the dispatcher is called and
    followed by the end of the text or one of [, ] } ] and a blank, is
    parsed back to [z]; the index ends right after it. *)
Theorem int_roundtrip (pre post : string) (z : Z) (n : nat) :
  Z.abs z < 10 ^ int_max_str_digits -> In (char_at post 0) number_stops ->
  parse_json (pre ++ py_str_int z ++ post)%string (S n) (py_len pre)
  = (Ok (VInt z), py_len pre + py_len (py_str_int z)).
Proof. apply parse_json_int_at. Qed.

Lemma int_roundtrip_witness :
  Z.abs (-4096) < 10 ^ int_max_str_digits /\ In (char_at "}" 0) number_stops /\
  parse_json ("[" ++ py_str_int (-4096) ++ "}")%string 1 (py_len "[")
  = (Ok (VInt (-4096)), py_len "[" + py_len (py_str_int (-4096))).
Proof.
  split; [vm_compute; reflexivity|]. split; [right; right; right; left; reflexivity|].
  apply int_roundtrip; [vm_compute; reflexivity|right; right; right; left; reflexivity].
Defined.

(** ** Arrays are parsed element by element *)

(** [t] is read by the dispatcher as [v], with any budget from [m0] on,
    wherever it stands when a comma or a closing bracket follows it. *)
Definition parses_with (m0 : nat) (t : string) (v : value) : Prop :=
  forall (m : nat) (pre post : string), (m0 <= m)%nat ->
  char_at post 0 = Some ","%char \/ char_at post 0 = Some "]"%char ->
  parse_json (pre ++ t ++ post)%string m (py_len pre) = (Ok v, py_len pre + py_len t).

Definition parses_as (t : string) (v : value) : Prop := exists m0, parses_with m0 t v.

(** [",".join(ts) + "]"] *)
Fixpoint join_items (ts : list string) : string :=
  match ts with
  | [] => "]"
  | t :: ts' => (t ++ match ts' with [] => "]" | _ => "," ++ join_items ts' end)%string
  end.

Lemma parses_with_mono (a b : nat) (t : string) (v : value) :
  (a <= b)%nat -> parses_with a t v -> parses_with b t v.
Proof. intros Hab H m pre post Hm. apply H. lia. Qed.

Lemma parses_as_uniform (ts : list string) (vs : list value) :
  Forall2 parses_as ts vs -> exists M, Forall2 (parses_with M) ts vs.
Proof.
  induction 1 as [|t v ts vs [m0 Hm0] _ [M HM]].
  - exists 0%nat. constructor.
  - exists (Nat.max m0 M). constructor.
    + eapply parses_with_mono; [|exact Hm0]. lia.
    + eapply Forall2_impl; [|exact HM]. intros t' v'. apply parses_with_mono. lia.
Qed.

Definition key_not_sep (c : ascii) : bool :=
  implb (dispatch_key c)
    (negb (skip_P ","%char (Some c)) && negb (opt_eqb (Some c) (Some "]"%char))).

Lemma key_not_sep_all : forall c, key_not_sep c = true.
Proof. apply all_chars_spec. vm_compute. reflexivity. Qed.

Lemma key_not_sep_facts (c : ascii) :
  dispatch_key c = true ->
  skip_P ","%char (Some c) = false /\ opt_eqb (Some c) (Some "]"%char) = false.
Proof.
  intros Hk. pose proof (key_not_sep_all c) as F. unfold key_not_sep in F.
  rewrite Hk in F. cbn [implb] in F. apply andb_true_iff in F as [F1 F2].
  apply negb_true_iff in F1, F2. split; assumption.
Qed.

(** A value is only read from a character the dispatcher accepts. *)
Lemma parse_ok_first (s : string) (m : nat) (i j : Z) (v : value) :
  0 <= i -> parse_json s m i = (Ok v, j) ->
  exists c, char_at s i = Some c /\ dispatch_key c = true.
Proof.
  intros Hi H. destruct m as [|m]; [discriminate|].
  destruct (char_at s i) as [c|] eqn:Hc.
  - exists c. split; [reflexivity|]. destruct (dispatch_key c) eqn:Hk; [reflexivity|].
    rewrite (parse_json_reject s m i c Hi Hc Hk) in H. discriminate.
  - cbn [parse_json] in H. rewrite (bind_ok _ _ _ _ _ (get_char_nonneg s i Hi)), Hc in H.
    discriminate.
Qed.

Lemma join_items_loop (M : nat) (ts : list string) (vs : list value) :
  Forall2 (parses_with M) ts vs ->
  forall s pre post l k m, (M <= m)%nat ->
  s = (pre ++ join_items ts ++ post)%string -> (length ts < k)%nat ->
  collection_loop s (parse_json s m) "]" (parse_json s m) "," k (CList l) (py_len pre)
  = (Ok (CList (l ++ vs)), py_len pre + py_len (join_items ts) - 1).
Proof.
  induction 1 as [|t v ts vs Htv Hall IH]; intros s pre post l k m Hm Hs Hk;
    pose proof (py_len_nonneg pre) as Hp.
  - destruct k as [|k]; [simpl in Hk; lia|].
    rewrite loop_at_end; [|exact Hp|rewrite Hs; apply char_at_app_len].
    rewrite app_nil_r. f_equal. change (py_len (join_items [])) with 1. lia.
  - destruct k as [|k]; [simpl in Hk; lia|].
    pose proof (py_len_nonneg t) as Ht.
    set (tail := match ts with [] => "]"%string | _ => ("," ++ join_items ts)%string end).
    assert (Hs1 : s = (pre ++ t ++ tail ++ post)%string).
    { rewrite Hs. cbn [join_items]. rewrite <- string_app_assoc. reflexivity. }
    assert (Htail : char_at (tail ++ post)%string 0 = Some ","%char
                    \/ char_at (tail ++ post)%string 0 = Some "]"%char)
      by (unfold tail; destruct ts; [right|left]; reflexivity).
    assert (Hpv : parse_json s m (py_len pre) = (Ok v, py_len pre + py_len t))
      by (rewrite Hs1; apply Htv; assumption).
    destruct (parse_ok_first s m (py_len pre) _ v Hp Hpv) as (c & Hc & Hkey).
    destruct (key_not_sep_facts c Hkey) as [_ Hnb].
    assert (Hj : char_at s (py_len pre + py_len t) = char_at (tail ++ post)%string 0)
      by (rewrite Hs1, char_at_app_r, char_at_app_len by lia; reflexivity).
    cbn [collection_loop].
    rewrite (bind_ok _ _ _ _ _ (get_char_nonneg s (py_len pre) Hp)), Hc.
    cbv beta. rewrite Hnb. cbn [negb andb opt_eqb].
    rewrite (bind_ok _ _ _ _ _ Hpv). cbv beta iota. rewrite bind_ret.
    destruct ts as [|t2 ts'].
    + inversion Hall; subst vs.
      assert (Hje : char_at s (py_len pre + py_len t) = Some "]"%char) by (rewrite Hj; reflexivity).
      assert (Hscan : skip_spaces_and_char s "," (py_len pre + py_len t)
                      = (Ok tt, py_len pre + py_len t)).
      { apply scan_at; [reflexivity|lia|lia|intros; lia|rewrite Hje; reflexivity]. }
      rewrite (bind_ok _ _ _ _ _ Hscan).
      destruct k as [|k]; [simpl in Hk; lia|].
      rewrite loop_at_end by (exact Hje || lia).
      f_equal. cbn [join_items]. rewrite py_len_app. change (py_len "]") with 1. lia.
    + inversion Hall as [|t2' v2 ts2 vs2 Ht2 Hall2]; subst vs.
      assert (Hs'' : s = ((pre ++ t ++ ",") ++ join_items (t2 :: ts') ++ post)%string).
      { rewrite Hs1. unfold tail. rewrite <- !string_app_assoc. reflexivity. }
      assert (Hl' : py_len (pre ++ t ++ ",")%string = py_len pre + py_len t + 1)
        by (rewrite !py_len_app; change (py_len ",") with 1; lia).
      assert (Hjc : char_at s (py_len pre + py_len t) = Some ","%char) by (rewrite Hj; reflexivity).
      (* the next element starts with a character the dispatcher accepts *)
      assert (Hs2 : s = ((pre ++ t ++ ",") ++ t2 ++
                         (match ts' with [] => "]"%string | _ => ("," ++ join_items ts')%string end
                          ++ post))%string).
      { rewrite Hs''. cbn [join_items]. f_equal. symmetry. apply string_app_assoc. }
      assert (Hpv2 : exists w j2, parse_json s m (py_len (pre ++ t ++ ",")%string) = (Ok w, j2)).
      { eexists _, _. rewrite Hs2 at 1. apply Ht2; [exact Hm|].
        destruct ts'; [right|left]; reflexivity. }
      destruct Hpv2 as (w & j2 & Hpv2).
      destruct (parse_ok_first s m _ j2 w (py_len_nonneg _) Hpv2) as (c2 & Hc2 & Hkey2).
      destruct (key_not_sep_facts c2 Hkey2) as [Hsk2 _].
      assert (Hscan : skip_spaces_and_char s "," (py_len pre + py_len t)
                      = (Ok tt, py_len pre + py_len t + 1)).
      { apply scan_at; [reflexivity|lia|lia| |].
        - intros x Hx. replace x with (py_len pre + py_len t) by lia. rewrite Hjc. reflexivity.
        - rewrite <- Hl', Hc2. exact Hsk2. }
      rewrite (bind_ok _ _ _ _ _ Hscan), <- Hl'.
      rewrite (IH s _ post (l ++ [v]) k m Hm Hs'') by (simpl in Hk |- *; lia).
      rewrite <- app_assoc. f_equal.
      rewrite Hl'. cbn [join_items]. rewrite !py_len_app. change (py_len ",") with 1. lia.
Qed.

(** Arrays compose: if each text of [ts] is read as the matching value of
    [vs], then [[] followed by [",".join(ts) + "]"] is read as the list
    [vs].  With the integers, strings and [true] read back above, this
    covers nested arrays of them. *)
Theorem array_of_parsed (ts : list string) (vs : list value) :
  Forall2 parses_as ts vs -> parses_as ("[" ++ join_items ts)%string (VList vs).
Proof.
  intros H. destruct (parses_as_uniform ts vs H) as [M HM].
  exists (S (S (Nat.max M (length ts)))).
  intros m pre post Hm _. destruct m as [|[|m]]; [lia|lia|].
  set (s := (pre ++ ("[" ++ join_items ts) ++ post)%string).
  pose proof (py_len_nonneg pre) as Hp.
  assert (Hs : s = ((pre ++ "[") ++ join_items ts ++ post)%string)
    by (unfold s; rewrite <- !string_app_assoc; reflexivity).
  assert (Hb : char_at s (py_len pre) = Some "["%char)
    by (unfold s; rewrite char_at_app_len; reflexivity).
  cbn [parse_json]. rewrite (bind_ok _ _ _ _ _ (get_char_nonneg s _ Hp)), Hb.
  cbv beta iota.
  replace (Ascii.eqb "[" "{") with false by reflexivity.
  replace (Ascii.eqb "[" "[") with true by reflexivity.
  unfold parse_array, parse_collection.
  rewrite (bind_ok _ _ _ _ _ (eq_refl : advance 1 (py_len pre) = (Ok tt, py_len pre + 1))).
  cbv beta zeta. replace (Ascii.eqb "]" "}") with false by reflexivity.
  assert (Hl : py_len (pre ++ "[")%string = py_len pre + 1)
    by (rewrite py_len_app; reflexivity).
  rewrite <- Hl.
  rewrite (bind_ok _ _ _ _ _ (join_items_loop M ts vs HM s (pre ++ "[") post [] (S m) (S m)
                                ltac:(lia) Hs ltac:(lia))).
  rewrite Hl, !py_len_app. change (py_len "[") with 1.
  cbv [advance bind ret collection_value app]. f_equal. lia.
Qed.

Definition nested_items : list string :=
  [py_str_int 7; ("[" ++ join_items [py_str_int (-1); py_str_int 20])%string].

Lemma int_parses_as (z : Z) :
  Z.abs z < 10 ^ int_max_str_digits -> parses_as (py_str_int z) (VInt z).
Proof.
  intros Hz. exists 1%nat. intros m pre post Hm Hpost. destruct m as [|m]; [lia|].
  apply parse_json_int_at; [exact Hz|]. destruct Hpost as [-> | ->]; [right; left|right; right; right; right; left];
    reflexivity.
Qed.

Lemma array_of_parsed_witness :
  Forall2 parses_as [py_str_int (-1); py_str_int 20] [VInt (-1); VInt 20] /\
  parses_as ("[" ++ join_items [py_str_int (-1); py_str_int 20])%string
            (VList [VInt (-1); VInt 20]).
Proof.
  assert (H : Forall2 parses_as [py_str_int (-1); py_str_int 20] [VInt (-1); VInt 20])
    by (repeat constructor; apply int_parses_as; vm_compute; reflexivity).
  split; [exact H|]. apply array_of_parsed. exact H.
Defined.
